(** * Idle Dungeon Explorer: the globe view and the game facade

    A shallow embedding of [src/idle-dungeon-game.tsx].

    JavaScript [number]s are modelled as real numbers: arithmetic is exact,
    and rounding, NaN and the infinities of IEEE-754 doubles are outside
    the model.  [Math.sin], [Math.cos] and [Math.sqrt] are the functions of
    the Reals library; [Date.now()] is an input of the frame that reads it.

    The subset of three.js the component relies on (Vector3, the Euler
    rotation of the globe mesh, world positions in the scene graph) is
    written out after the library's definitions. *)

From Stdlib Require Import Reals Lra Lia List Bool String Sorted.
Import ListNotations.

Open Scope R_scope.

(** ** Numbers *)

Abbreviation number := R (only parsing).

(** [a > b] as the JavaScript boolean expression. *)
Definition gtb (a b : number) : bool :=
  if Rgt_dec a b then true else false.

(** [a >= b] as the JavaScript boolean expression. *)
Definition geb (a b : number) : bool :=
  if Rge_dec a b then true else false.

(** [a === b] on numbers. *)
Definition eqb_number (a b : number) : bool :=
  if Req_dec_T a b then true else false.

(** [a || b] on numbers: [a] unless it is falsy, that is zero. *)
Definition or_number (a b : number) : number :=
  if Req_dec_T a 0 then b else a.

(** ** three.js: Vector3 *)

Record Vector3 := mkVector3 { vx : number; vy : number; vz : number }.

Definition length (v : Vector3) : number :=
  sqrt (vx v * vx v + vy v * vy v + vz v * vz v).

Definition multiplyScalar (v : Vector3) (s : number) : Vector3 :=
  mkVector3 (vx v * s) (vy v * s) (vz v * s).

Definition divideScalar (v : Vector3) (s : number) : Vector3 :=
  multiplyScalar v (1 / s).

(** [normalize() { return this.divideScalar(this.length() || 1) }] *)
Definition normalize (v : Vector3) : Vector3 :=
  divideScalar v (or_number (length v) 1).

Definition sub (a b : Vector3) : Vector3 :=
  mkVector3 (vx a - vx b) (vy a - vy b) (vz a - vz b).

Definition dot (a b : Vector3) : number :=
  vx a * vx b + vy a * vy b + vz a * vz b.

(** ** three.js: Euler angles (order XYZ) and the rotation they stand for *)

Record Euler := mkEuler { ex : number; ey : number; ez : number }.

(** The upper 3x3 block of [Matrix4.makeRotationFromEuler] for the default
    order XYZ, applied to a vector. *)
Definition applyEuler (e : Euler) (v : Vector3) : Vector3 :=
  let a := cos (ex e) in let b := sin (ex e) in
  let c := cos (ey e) in let d := sin (ey e) in
  let e' := cos (ez e) in let f := sin (ez e) in
  let ae := a * e' in let af := a * f in
  let be := b * e' in let bf := b * f in
  mkVector3
    (c * e' * vx v + - c * f * vy v + d * vz v)
    ((af + be * d) * vx v + (ae - bf * d) * vy v + - b * c * vz v)
    ((bf - ae * d) * vx v + (be + af * d) * vy v + a * c * vz v).

(** ** Game configuration *)

Record Dungeon := mkDungeon {
  id : number;
  name : string;
  level : number;
  requiredStrength : number;
  position : Vector3;   (* [number, number, number] *)
  color : string
}.

Definition goblinCave : Dungeon :=
  mkDungeon 1 "Goblin Cave" 1 10 (mkVector3 2 3 2) "#4ade80".
Definition orcStronghold : Dungeon :=
  mkDungeon 2 "Orc Stronghold" 2 50 (mkVector3 (-3) 2 1) "#f59e0b".
Definition dragonLair : Dungeon :=
  mkDungeon 3 "Dragon Lair" 3 150 (mkVector3 1 (-3) 3) "#ef4444".
Definition undeadCrypt : Dungeon :=
  mkDungeon 4 "Undead Crypt" 4 300 (mkVector3 (-2) (-2) (-3)) "#8b5cf6".
Definition demonFortress : Dungeon :=
  mkDungeon 5 "Demon Fortress" 5 500 (mkVector3 3 1 (-2)) "#dc2626".

Definition DUNGEONS : list Dungeon :=
  [goblinCave; orcStronghold; dragonLair; undeadCrypt; demonFortress].

Definition TICK_RATE : number := 60.
Definition STRENGTH_PER_TICK : number := 0.1.
Definition EXPERIENCE_PER_TICK : number := 0.05.
Definition GLOBE_RADIUS : number := 5.

(** ** The globe view: scene objects *)

Record Material := mkMaterial {
  opacity : number;
  transparent : bool;
  emissiveIntensity : number
}.

(** [marker.userData = { dungeon, index }] *)
Record UserData := mkUserData { dungeon : Dungeon; index : nat }.

(** A marker mesh: its local position inside the group that is attached to
    the globe, its scale, its material and its user data. *)
Record Marker := mkMarker {
  marker_position : Vector3;
  scale : Vector3;
  material : Material;
  userData : UserData
}.

(** The candidates of the ray cast, [[globe, ...dungeonMarkersRef.current]]:
    the globe mesh, whose [userData] is the empty object, or a marker. *)
Inductive Object3D :=
| GlobeMesh
| MarkerMesh (m : Marker).

(** [object.userData && object.userData.dungeon]: the dungeon of a marker,
    nothing (a falsy value) for the globe. *)
Definition userData_dungeon (o : Object3D) : option Dungeon :=
  match o with
  | GlobeMesh => None
  | MarkerMesh m => Some (dungeon (userData m))
  end.

(** One entry of [raycaster.intersectObjects]. *)
Record Intersection := mkIntersection { distance : number; object : Object3D }.

Record Camera := mkCamera { camera_position : Vector3 }.

Record Vector2 := mkVector2 { v2x : number; v2y : number }.

(** ** The globe view: refs, events and the state of one mount *)

Record MouseRef := mkMouseRef {
  mouse_x : number; mouse_y : number;
  isDragging : bool;
  lastX : number; lastY : number
}.

Record RotationRef := mkRotationRef { rot_x : number; rot_y : number }.

(** The refs of the component that the effect reads and writes; they live
    as long as the component, across runs of the effect. *)
Record Refs := mkRefs {
  mouseRef : MouseRef;
  rotationRef : RotationRef;
  dungeonMarkersRef : list Marker
}.

Definition initialRefs : Refs :=
  mkRefs (mkMouseRef 0 0 false 0 0) (mkRotationRef 0 0) [].

Record MouseEvent := mkMouseEvent { clientX : number; clientY : number }.

Record DOMRect := mkDOMRect {
  rect_left : number; rect_top : number;
  rect_width : number; rect_height : number
}.

Inductive EventType := mousedown | mousemove | mouseup | click.

Definition EventType_eqb (a b : EventType) : bool :=
  match a, b with
  | mousedown, mousedown | mousemove, mousemove
  | mouseup, mouseup | click, click => true
  | _, _ => false
  end.

Record GlobeProps := mkGlobeProps {
  props_dungeons : list Dungeon;
  props_selectedDungeon : option Dungeon
}.

(** What one run of the effect of [Globe] creates and its closures share:
    the refs, the rotation of the globe mesh, the camera, the value of the
    prop [selectedDungeon] that the closures captured, the listeners
    registered on the canvas, the callbacks waiting in the animation-frame
    queue, the number of frames drawn and whether the canvas is attached to
    the mount element. *)
Record GlobeScene := mkGlobeScene {
  refs : Refs;
  globe_rotation : Euler;
  camera : Camera;
  selectedDungeon : option Dungeon;
  listeners : list EventType;
  rafPending : nat;
  framesRendered : nat;
  canvasAttached : bool
}.

Definition set_refs (r : Refs) (s : GlobeScene) : GlobeScene :=
  mkGlobeScene r (globe_rotation s) (camera s) (selectedDungeon s)
    (listeners s) (rafPending s) (framesRendered s) (canvasAttached s).

Definition set_globe_rotation (e : Euler) (s : GlobeScene) : GlobeScene :=
  mkGlobeScene (refs s) e (camera s) (selectedDungeon s)
    (listeners s) (rafPending s) (framesRendered s) (canvasAttached s).

Definition set_listeners (l : list EventType) (s : GlobeScene) : GlobeScene :=
  mkGlobeScene (refs s) (globe_rotation s) (camera s) (selectedDungeon s)
    l (rafPending s) (framesRendered s) (canvasAttached s).

Definition set_rafPending (n : nat) (s : GlobeScene) : GlobeScene :=
  mkGlobeScene (refs s) (globe_rotation s) (camera s) (selectedDungeon s)
    (listeners s) n (framesRendered s) (canvasAttached s).

Definition set_framesRendered (n : nat) (s : GlobeScene) : GlobeScene :=
  mkGlobeScene (refs s) (globe_rotation s) (camera s) (selectedDungeon s)
    (listeners s) (rafPending s) n (canvasAttached s).

Definition set_canvasAttached (b : bool) (s : GlobeScene) : GlobeScene :=
  mkGlobeScene (refs s) (globe_rotation s) (camera s) (selectedDungeon s)
    (listeners s) (rafPending s) (framesRendered s) b.

(** [array.forEach((element, index) => ...)] rebuilding the elements. *)
Fixpoint mapi_from {A B : Type} (f : A -> nat -> B) (i : nat) (l : list A)
  : list B :=
  match l with
  | [] => []
  | a :: l' => f a i :: mapi_from f (S i) l'
  end.

Definition mapi {A B : Type} (f : A -> nat -> B) (l : list A) : list B :=
  mapi_from f 0 l.

(** ** The globe view: building the markers (lines 150-168) *)

Definition setScalar (s : number) : Vector3 := mkVector3 s s s.

Definition createMarker (d : Dungeon) (i : nat) : Marker :=
  let vector := normalize (position d) in
  let vector := multiplyScalar vector (GLOBE_RADIUS + 0.4) in
  mkMarker vector (setScalar 1) (mkMaterial 1 false 0.4) (mkUserData d i).

(** [marker.getWorldPosition]: the marker is a child of a group at the
    identity transform, itself a child of the globe mesh, which sits at the
    origin with unit scale and the rotation [rot]. *)
Definition getWorldPosition (rot : Euler) (m : Marker) : Vector3 :=
  applyEuler rot (marker_position m).

(** ** The globe view: pointer handlers (lines 179-207) *)

Definition handleMouseDown (event : MouseEvent) (s : GlobeScene) : GlobeScene :=
  let r := refs s in
  let m := mouseRef r in
  set_refs
    (mkRefs (mkMouseRef (mouse_x m) (mouse_y m) true (clientX event) (clientY event))
            (rotationRef r) (dungeonMarkersRef r)) s.

Definition handleMouseMove (event : MouseEvent) (s : GlobeScene) : GlobeScene :=
  let r := refs s in
  let m := mouseRef r in
  if negb (isDragging m) then s
  else
    let deltaX := clientX event - lastX m in
    let deltaY := clientY event - lastY m in
    let rot := mkRotationRef (rot_x (rotationRef r) + deltaY * 0.01)
                             (rot_y (rotationRef r) + deltaX * 0.01) in
    let g := mkEuler (rot_x rot) (rot_y rot) (ez (globe_rotation s)) in
    set_globe_rotation g
      (set_refs
         (mkRefs (mkMouseRef (mouse_x m) (mouse_y m) (isDragging m)
                             (clientX event) (clientY event))
                 rot (dungeonMarkersRef r)) s).

Definition handleMouseUp (s : GlobeScene) : GlobeScene :=
  let r := refs s in
  let m := mouseRef r in
  set_refs
    (mkRefs (mkMouseRef (mouse_x m) (mouse_y m) false (lastX m) (lastY m))
            (rotationRef r) (dungeonMarkersRef r)) s.

(** ** The globe view: picking (lines 209-251) *)

Section Picking.

(** The layout of the page: [renderer.domElement.getBoundingClientRect()]. *)
Variable getBoundingClientRect : DOMRect.

(** three.js' ray caster: [setFromCamera(mouse, camera)] followed by
    [intersectObjects(allObjects)], for the globe rotated by the given
    angles.  three.js returns the hits nearest first. *)
Variable intersectObjects :
  Vector2 -> Camera -> Euler -> list Object3D -> list Intersection.

(** The body of [for (let intersect of intersects)]: the calls of
    [onDungeonSelect] made by the loop and by the line after it. *)
Fixpoint scanIntersects (cam : Camera) (rot : Euler)
         (intersects : list Intersection) : list (option Dungeon) :=
  match intersects with
  | [] => [None]                       (* onDungeonSelect(null) *)
  | intersect :: rest =>
      match object intersect with
      | MarkerMesh marker =>
          let worldPosition := getWorldPosition rot marker in
          let globeCenter := mkVector3 0 0 0 in
          let markerDirection := normalize (sub worldPosition globeCenter) in
          let cameraDirection :=
            normalize (sub (camera_position cam) globeCenter) in
          let dotProduct := dot markerDirection cameraDirection in
          if gtb dotProduct 0.3
          then [Some (dungeon (userData marker))]   (* ...; return *)
          else scanIntersects cam rot rest
      | GlobeMesh => scanIntersects cam rot rest
      end
  end.

(** [handleClick]: the list of the calls of [onDungeonSelect] it makes,
    in order.  It changes nothing in the scene. *)
Definition handleClick (event : MouseEvent) (s : GlobeScene)
  : list (option Dungeon) :=
  if isDragging (mouseRef (refs s)) then []
  else
    let rect := getBoundingClientRect in
    let mouse :=
      mkVector2
        (((clientX event - rect_left rect) / rect_width rect) * 2 - 1)
        (- ((clientY event - rect_top rect) / rect_height rect) * 2 + 1) in
    let allObjects :=
      GlobeMesh :: map MarkerMesh (dungeonMarkersRef (refs s)) in
    let intersects :=
      intersectObjects mouse (camera s) (globe_rotation s) allObjects in
    scanIntersects (camera s) (globe_rotation s) intersects.

End Picking.

(** ** The globe view: the animation loop (lines 259-299) *)

(** The body of [dungeonMarkersRef.current.forEach((marker, index) => ...)]
    for the selection [selected] that the closure holds and the wall-clock
    reading [now] of the frame. *)
Definition animateMarker (cam : Camera) (rot : Euler)
           (selected : option Dungeon) (now : number)
           (marker : Marker) (index : nat) : Marker :=
  let worldPosition := getWorldPosition rot marker in
  let globeCenter := mkVector3 0 0 0 in
  let markerDirection := normalize (sub worldPosition globeCenter) in
  let cameraDirection := normalize (sub (camera_position cam) globeCenter) in
  let dotProduct := dot markerDirection cameraDirection in
  let isVisible := gtb dotProduct 0.3 in
  let intensity :=
    if isVisible then 0.4 + sin (now * 0.001 + INR index) * 0.3 else 0.1 in
  let highlighted :=
    match selected with
    | Some sel =>
        eqb_number (id (dungeon (userData marker))) (id sel) && isVisible
    | None => false
    end in
  mkMarker (marker_position marker)
           (if highlighted then setScalar (1.5 + sin (now * 0.005) * 0.2)
            else setScalar 1)
           (mkMaterial (if isVisible then 1 else 0.15) true intensity)
           (userData marker).

(** One call of [animate]: it asks for the next frame, re-asserts the
    rotation of the globe, restyles every marker and draws. *)
Definition animate (now : number) (s : GlobeScene) : GlobeScene :=
  let s := set_rafPending (S (rafPending s)) s in
  let rot := mkEuler (rot_x (rotationRef (refs s)))
                     (rot_y (rotationRef (refs s)))
                     (ez (globe_rotation s)) in
  let s := set_globe_rotation rot s in
  let markers :=
    mapi (animateMarker (camera s) (globe_rotation s) (selectedDungeon s) now)
         (dungeonMarkersRef (refs s)) in
  let s := set_refs (mkRefs (mouseRef (refs s)) (rotationRef (refs s)) markers) s in
  set_framesRendered (S (framesRendered s)) s.

(** The browser reaches the next display frame: every callback waiting in
    the animation-frame queue is taken out of it and run. *)
Definition runFrame (now : number) (s : GlobeScene) : GlobeScene :=
  Nat.iter (rafPending s) (animate now) (set_rafPending 0 s).

(** ** The globe view: the effect and its cleanup (lines 110-312) *)

Definition addEventListener (t : EventType) (l : list EventType)
  : list EventType :=
  if existsb (EventType_eqb t) l then l else l ++ [t].

Definition removeEventListener (t : EventType) (l : list EventType)
  : list EventType :=
  filter (fun t' => negb (EventType_eqb t t')) l.

(** The effect, run once after the first render (its dependency list is
    empty): nothing happens without a mount element; otherwise the scene is
    built from the props of that render and the refs, the listeners are
    registered and [animate] is called once, at the wall-clock time [now]. *)
Definition mount (mountRef_current : bool) (props : GlobeProps) (r : Refs)
           (now : number) : option GlobeScene :=
  if negb mountRef_current then None
  else
    let cam := mkCamera (mkVector3 0 0 10) in
    let markers :=
      dungeonMarkersRef r ++ mapi createMarker (props_dungeons props) in
    let ls :=
      addEventListener click
        (addEventListener mouseup
           (addEventListener mousemove
              (addEventListener mousedown []))) in
    let s :=
      mkGlobeScene (mkRefs (mouseRef r) (rotationRef r) markers)
                   (mkEuler 0 0 0) cam (props_selectedDungeon props)
                   ls 0 0 true in
    Some (animate now s).

(** The function the effect returns, run when the component unmounts. *)
Definition cleanup (mountRef_current : bool) (s : GlobeScene) : GlobeScene :=
  let ls :=
    removeEventListener click
      (removeEventListener mouseup
         (removeEventListener mousemove
            (removeEventListener mousedown (listeners s)))) in
  let s := set_listeners ls s in
  if mountRef_current then set_canvasAttached false s else s.

(** A later render of [Globe] with other props: the refs are the same
    objects and the effect, whose dependency list is empty, does not run
    again, so nothing that the closures hold changes. *)
Definition rerender (props : GlobeProps) (s : GlobeScene) : GlobeScene := s.

(** ** The game facade: [IdleDungeonGame] (lines 318-370) *)

Record Player := mkPlayer {
  strength : number;
  experience : number;
  player_level : number;
  gold : number
}.

(** The three [useState] cells of the component. *)
Record GameState := mkGameState {
  player : Player;
  game_selectedDungeon : option Dungeon;
  gameLog : list string
}.

Definition initialGame : GameState :=
  mkGameState (mkPlayer 1 0 1 0) None [].

(** [Math.floor] *)
Definition floor (x : number) : number := IZR (Int_part x).

(** The callback of [setInterval]: [setPlayer(prev => ...)]. *)
Definition tick (g : GameState) : GameState :=
  let prev := player g in
  let newExperience := experience prev + EXPERIENCE_PER_TICK in
  let newLevel := floor (newExperience / 10) + 1 in
  mkGameState
    (mkPlayer (strength prev + STRENGTH_PER_TICK) newExperience newLevel
              (gold prev))
    (game_selectedDungeon g) (gameLog g).

Definition handleDungeonSelect (d : option Dungeon) (g : GameState)
  : GameState :=
  mkGameState (player g) d (gameLog g).

(** [prev.slice(-n)]: the last [n] elements, all of them when there are
    fewer. *)
Definition slice_last {A : Type} (n : nat) (l : list A) : list A :=
  skipn (List.length l - n) l.

Section Raid.

(** The conversion of a number to a string inside a template literal. *)
Variable numberToString : number -> string.

Definition raidMessage (d : Dungeon) (goldReward expReward : number)
  : string :=
  ("Successfully raided " ++ name d ++ "! Gained "
     ++ numberToString goldReward ++ " gold and "
     ++ numberToString expReward ++ " experience.")%string.

(** [handleRaid]: [player] is the value of the state cell that the render
    which created the handler saw; the updates themselves are functional
    and act on the state [g] they find. *)
Definition handleRaid (player_seen : Player) (d : Dungeon) (g : GameState)
  : GameState :=
  let success := geb (strength player_seen) (requiredStrength d) in
  if success then
    let goldReward := level d * 10 in
    let expReward := level d * 5 in
    let prev := player g in
    let prevLog := gameLog g in
    mkGameState
      (mkPlayer (strength prev) (experience prev + expReward)
                (player_level prev) (gold prev + goldReward))
      (game_selectedDungeon g)
      (slice_last 4 prevLog ++ [raidMessage d goldReward expReward])
  else g.

(** The [onClick] of the raid button of [DungeonInfo]; the button exists
    only while a dungeon is selected. *)
Definition raidButton (g : GameState) : GameState :=
  match game_selectedDungeon g with
  | None => g
  | Some d =>
      if geb (strength (player g)) (requiredStrength d)
      then handleRaid (player g) d g
      else g
  end.

End Raid.

(** ** The whole page: the facade and the globe view it renders *)

Record App := mkApp { game : GameState; view : option GlobeScene }.

Inductive AppEvent :=
| Tick                                   (* the interval timer fires *)
| Pointer (t : EventType) (e : MouseEvent)   (* a pointer event on the canvas *)
| Frame (now : number)                   (* a display frame *)
| RaidClick                              (* the raid button is pressed *)
| Raid (d : Dungeon)                     (* [handleRaid(d)] is called *)
| Unmount (mountRef_current : bool).     (* the globe view unmounts *)

Section Page.

Variable getBoundingClientRect : DOMRect.
Variable intersectObjects :
  Vector2 -> Camera -> Euler -> list Object3D -> list Intersection.
Variable numberToString : number -> string.

(** The props [IdleDungeonGame] passes to [Globe] at every render. *)
Definition globeProps (g : GameState) : GlobeProps :=
  mkGlobeProps DUNGEONS (game_selectedDungeon g).

(** The first render of the page and the effects that follow it. *)
Definition initialApp (now : number) : App :=
  mkApp initialGame (mount true (globeProps initialGame) initialRefs now).

(** A pointer event reaches a handler only while the handler is
    registered; the result is the scene and the calls of
    [onDungeonSelect] made. *)
Definition dispatch (t : EventType) (e : MouseEvent) (s : GlobeScene)
  : GlobeScene * list (option Dungeon) :=
  if existsb (EventType_eqb t) (listeners s) then
    match t with
    | mousedown => (handleMouseDown e s, [])
    | mousemove => (handleMouseMove e s, [])
    | mouseup => (handleMouseUp s, [])
    | click => (s, handleClick getBoundingClientRect intersectObjects e s)
    end
  else (s, []).

(** A change of the facade's state renders the page again, and with it
    [Globe] with the props of that moment. *)
Definition commit (g : GameState) (v : option GlobeScene) : App :=
  mkApp g (option_map (rerender (globeProps g)) v).

Definition appStep (a : App) (ev : AppEvent) : App :=
  match ev with
  | Tick => commit (tick (game a)) (view a)
  | Pointer t e =>
      match view a with
      | None => a
      | Some s =>
          let (s', calls) := dispatch t e s in
          commit (fold_left (fun g d => handleDungeonSelect d g) calls (game a))
                 (Some s')
      end
  | Frame now => mkApp (game a) (option_map (runFrame now) (view a))
  | RaidClick => commit (raidButton numberToString (game a)) (view a)
  | Raid d =>
      commit (handleRaid numberToString (player (game a)) d (game a)) (view a)
  | Unmount mountRef_current =>
      mkApp (game a) (option_map (cleanup mountRef_current) (view a))
  end.

Definition appRun (a : App) (evs : list AppEvent) : App :=
  fold_left appStep evs a.

End Page.

(** ** The properties as the specification words them *)

(** The front-face visibility score of a marker at world position [P]. *)
Definition frontFaceScore (P cameraPosition : Vector3) : number :=
  let sphereCenter := mkVector3 0 0 0 in
  let D := normalize (sub P sphereCenter) in
  let C := normalize (sub cameraPosition sphereCenter) in
  dot D C.

(** An intersection passes the pick test: its target is a marker and the
    marker's score exceeds 0.3. *)
Definition passesPick (cam : Camera) (rot : Euler) (i : Intersection) : Prop :=
  match object i with
  | MarkerMesh m =>
      frontFaceScore (getWorldPosition rot m) (camera_position cam) > 0.3
  | GlobeMesh => False
  end.

(** The normalized device coordinates of a click. *)
Definition deviceCoordinates (rect : DOMRect) (event : MouseEvent) : Vector2 :=
  mkVector2 (((clientX event - rect_left rect) / rect_width rect) * 2 - 1)
            (- ((clientY event - rect_top rect) / rect_height rect) * 2 + 1).






Definition drag (events : list MouseEvent) (s : GlobeScene) : GlobeScene :=
  fold_left (fun s e => handleMouseMove e s) events s.

(** [a] is at most as far along the ray as [b]. *)
Definition nearer (a b : Intersection) : Prop := distance a <= distance b.

(** The scene that the page mounted: its closures hold the selection of
    the first render, which is none, and one call of [animate] waits in
    the animation-frame queue. *)
Definition mountedView (a : App) : Prop :=
  exists s, view a = Some s /\ selectedDungeon s = None /\ rafPending s = 1%nat.

(** The scene of the page after its first render at the time [now0]: the
    five markers of the game on the unrotated globe, styled by the first
    call of [animate]. *)
Definition pageScene (now0 : number) : GlobeScene :=
  animate now0
    (mkGlobeScene
       (mkRefs (mkMouseRef 0 0 false 0 0) (mkRotationRef 0 0)
               (mapi createMarker DUNGEONS))
       (mkEuler 0 0 0) (mkCamera (mkVector3 0 0 10)) None
       [mousedown; mousemove; mouseup; click] 0 0 true).

(** A ray that hits the first marker of the scene and nothing else. *)
Definition hitFirstMarker
           (_ : Vector2) (_ : Camera) (_ : Euler) (objs : list Object3D)
  : list Intersection :=
  match objs with
  | _ :: o :: _ => [mkIntersection 4.7 o]
  | _ => []
  end.

(** A ray that grazes the silhouette of the globe of the game: it hits the
    fourth marker, then the globe, then the first marker. *)
Definition grazingRay
           (_ : Vector2) (_ : Camera) (_ : Euler) (objs : list Object3D)
  : list Intersection :=
  match objs with
  | g :: m0 :: _ :: _ :: m3 :: _ =>
      [mkIntersection 4.7 m3; mkIntersection 5 g; mkIntersection 5.2 m0]
  | _ => []
  end.

(** ** Runs of events, for the properties of the handlers *)

(** A whole drag gesture: pointer-down at [e0], the pointer-moves
    [events], pointer-up. *)
Definition gesture (e0 : MouseEvent) (events : list MouseEvent)
           (s : GlobeScene) : GlobeScene :=
  handleMouseUp (drag events (handleMouseDown e0 s)).

(** The hit is on a marker, not on the globe. *)
Definition isMarkerHit (i : Intersection) : bool :=
  match object i with
  | MarkerMesh _ => true
  | GlobeMesh => false
  end.

(** The ray caster returns hits on the objects it was given only. *)
Definition hitsCandidatesOnly
           (raycast : Vector2 -> Camera -> Euler -> list Object3D
                      -> list Intersection) : Prop :=
  forall ndc cam rot objs i,
    In i (raycast ndc cam rot objs) -> In (object i) objs.

Definition isFrame (ev : AppEvent) : bool :=
  match ev with Frame _ => true | _ => false end.


Definition isUnmount (ev : AppEvent) : bool :=
  match ev with Unmount _ => true | _ => false end.

Definition isPointer (ev : AppEvent) : bool :=
  match ev with Pointer _ _ => true | _ => false end.


(** The actions of the facade on its own state. *)
Inductive GameAction :=
| DoTick
| DoSelect (d : option Dungeon)
| DoRaid (d : Dungeon)
| DoRaidButton.

(** What a frame never touches in a marker: its base position and its
    user data. *)
Definition markerBase (m : Marker) : Vector3 * UserData :=
  (marker_position m, userData m).

(** The scene of the page as the handlers and the frames keep it: the
    globe carries the stored pitch and yaw and no roll, the camera is where
    the effect put it, the markers are those built for the dungeons of the
    game, one call of [animate] waits for the next frame. *)
Definition pageSceneInvariant (s : GlobeScene) : Prop :=
  globe_rotation s
  = mkEuler (rot_x (rotationRef (refs s))) (rot_y (rotationRef (refs s))) 0
  /\ camera s = mkCamera (mkVector3 0 0 10)
  /\ map markerBase (dungeonMarkersRef (refs s))
     = map markerBase (mapi createMarker DUNGEONS)
  /\ rafPending s = 1%nat.



(** * Proofs *)

(** ** Comparisons *)

Lemma gtb_true_iff (a b : number) : gtb a b = true <-> a > b.
Proof.
  unfold gtb. destruct (Rgt_dec a b); split; intros; auto; discriminate.
Qed.

Lemma gtb_false_iff (a b : number) : gtb a b = false <-> a <= b.
Proof.
  unfold gtb. destruct (Rgt_dec a b); split; intros; try discriminate; auto; lra.
Qed.

Lemma geb_true_iff (a b : number) : geb a b = true <-> a >= b.
Proof.
  unfold geb. destruct (Rge_dec a b); split; intros; auto; discriminate.
Qed.

Lemma geb_false_iff (a b : number) : geb a b = false <-> a < b.
Proof.
  unfold geb. destruct (Rge_dec a b); split; intros; try discriminate; auto; lra.
Qed.

Lemma eqb_number_true_iff (a b : number) : eqb_number a b = true <-> a = b.
Proof.
  unfold eqb_number. destruct (Req_dec_T a b); split; intros; auto; discriminate.
Qed.

(** ** Vectors *)

Lemma length_nonneg (v : Vector3) : 0 <= length v.
Proof. apply sqrt_pos. Qed.

Lemma sumsq_nonneg (x y z : R) : 0 <= x * x + y * y + z * z.
Proof. nra. Qed.

Lemma length_zero_iff (v : Vector3) : length v = 0 <-> v = mkVector3 0 0 0.
Proof.
  destruct v as [x y z]. unfold length; simpl. split.
  - intros H. apply sqrt_eq_0 in H; [|apply sumsq_nonneg].
    assert (x = 0) by nra. assert (y = 0) by nra. assert (z = 0) by nra.
    subst. reflexivity.
  - intros H. inversion H; subst.
    replace (0 * 0 + 0 * 0 + 0 * 0) with 0 by ring. apply sqrt_0.
Qed.

Lemma length_multiplyScalar (v : Vector3) (k : number) :
  0 <= k -> length (multiplyScalar v k) = k * length v.
Proof.
  intros Hk. destruct v as [x y z]. unfold length, multiplyScalar; simpl.
  replace (x * k * (x * k) + y * k * (y * k) + z * k * (z * k))
    with (k * k * (x * x + y * y + z * z)) by ring.
  rewrite sqrt_mult; [| nra | apply sumsq_nonneg].
  rewrite sqrt_square; auto.
Qed.

Lemma normalize_nonzero (v : Vector3) :
  v <> mkVector3 0 0 0 -> normalize v = multiplyScalar v (1 / length v).
Proof.
  intros Hv. unfold normalize, divideScalar, or_number.
  destruct (Req_dec_T (length v) 0) as [H0|H0]; auto.
  apply length_zero_iff in H0. contradiction.
Qed.

Lemma length_pos (v : Vector3) : v <> mkVector3 0 0 0 -> 0 < length v.
Proof.
  intros Hv. pose proof (length_nonneg v).
  assert (length v <> 0) by (rewrite length_zero_iff; auto). lra.
Qed.

Lemma length_normalize (v : Vector3) :
  v <> mkVector3 0 0 0 -> length (normalize v) = 1.
Proof.
  intros Hv. rewrite normalize_nonzero; auto.
  pose proof (length_pos v Hv).
  rewrite length_multiplyScalar.
  - field. lra.
  - apply Rlt_le. apply Rdiv_lt_0_compat; lra.
Qed.

Lemma normalize_zero : normalize (mkVector3 0 0 0) = mkVector3 0 0 0.
Proof.
  unfold normalize, divideScalar, multiplyScalar; simpl.
  f_equal; ring.
Qed.

Lemma multiplyScalar_nonzero (v : Vector3) (k : number) :
  v <> mkVector3 0 0 0 -> k <> 0 -> multiplyScalar v k <> mkVector3 0 0 0.
Proof.
  intros Hv Hk H. apply Hv. destruct v as [x y z].
  unfold multiplyScalar in H; simpl in H. inversion H.
  f_equal; nra.
Qed.


(** ** Lists rebuilt by [forEach] *)

Lemma nth_error_mapi_from {A B : Type} (f : A -> nat -> B) (l : list A) :
  forall k j,
    nth_error (mapi_from f k l) j
    = option_map (fun a => f a (k + j)%nat) (nth_error l j).
Proof.
  induction l as [|a l IH]; intros k j.
  - destruct j; reflexivity.
  - destruct j; simpl.
    + rewrite Nat.add_0_r. reflexivity.
    + rewrite IH. replace (S k + j)%nat with (k + S j)%nat by lia. reflexivity.
Qed.

Lemma nth_error_mapi {A B : Type} (f : A -> nat -> B) (l : list A) (j : nat) :
  nth_error (mapi f l) j = option_map (fun a => f a j) (nth_error l j).
Proof. unfold mapi. rewrite nth_error_mapi_from. reflexivity. Qed.

Lemma length_mapi_from {A B : Type} (f : A -> nat -> B) (l : list A) :
  forall k, List.length (mapi_from f k l) = List.length l.
Proof. induction l; intros k; simpl; auto. Qed.

(** ** Marker placement *)

Lemma placement_distance (v : Vector3) :
  v <> mkVector3 0 0 0 ->
  length (multiplyScalar (normalize v) (GLOBE_RADIUS + 0.4)) = GLOBE_RADIUS + 0.4.
Proof.
  intros Hv. unfold GLOBE_RADIUS.
  rewrite length_multiplyScalar by lra.
  rewrite length_normalize by assumption. ring.
Qed.





(** ** Drag rotation *)









(** ** Picking *)

Lemma passesPick_marker (cam : Camera) (rot : Euler) (i : Intersection)
      (m : Marker) :
  object i = MarkerMesh m ->
  (passesPick cam rot i
   <-> frontFaceScore (getWorldPosition rot m) (camera_position cam) > 0.3).
Proof. intros H. unfold passesPick. rewrite H. tauto. Qed.

Lemma scanIntersects_spec (cam : Camera) (rot : Euler)
      (intersects : list Intersection) :
  (exists pre i m post,
      intersects = pre ++ i :: post
      /\ object i = MarkerMesh m
      /\ frontFaceScore (getWorldPosition rot m) (camera_position cam) > 0.3
      /\ (forall j, In j pre -> ~ passesPick cam rot j)
      /\ scanIntersects cam rot intersects = [Some (dungeon (userData m))])
  \/ ((forall j, In j intersects -> ~ passesPick cam rot j)
      /\ scanIntersects cam rot intersects = [None]).
Proof.
  induction intersects as [|i rest IH].
  - right. split; [intros j []|reflexivity].
  - simpl. destruct (object i) as [|m] eqn:Ho.
    + (* the globe: skipped *)
      destruct IH as [(pre & i' & m' & post & -> & Ho' & Hs & Hpre & Hr)|[Hall Hr]].
      * left. exists (i :: pre), i', m', post. repeat split; auto.
        intros j [<-|Hj]; [|auto]. unfold passesPick. rewrite Ho. tauto.
      * right. split; auto.
        intros j [<-|Hj]; [|auto]. unfold passesPick. rewrite Ho. tauto.
    + (* a marker: the front-face test decides *)
      destruct (gtb _ 0.3) eqn:Hg.
      * left. exists [], i, m, rest. apply gtb_true_iff in Hg.
        repeat split; auto; intros j [].
      * apply gtb_false_iff in Hg.
        assert (Hi : ~ passesPick cam rot i).
        { rewrite (passesPick_marker cam rot i m Ho).
          unfold frontFaceScore. lra. }
        destruct IH as [(pre & i' & m' & post & -> & Ho' & Hs & Hpre & Hr)|[Hall Hr]].
        -- left. exists (i :: pre), i', m', post. repeat split; auto.
           intros j [<-|Hj]; auto.
        -- right. split; auto. intros j [<-|Hj]; auto.
Qed.

Lemma sorted_middle_nearest (pre post : list Intersection) (i : Intersection) :
  StronglySorted nearer (pre ++ i :: post) ->
  forall j, In j post -> nearer i j.
Proof.
  induction pre as [|p pre IH]; simpl; intros Hs j Hj.
  - inversion Hs as [|? ? _ Hall]; subst.
    rewrite Forall_forall in Hall. auto.
  - inversion Hs; subst. auto.
Qed.

(** C1: on a click that is not a drag, the hits of the ray on the sphere
    and the markers are scanned in the order the ray caster returns them;
    either some hit is a marker whose score exceeds 0.3 while no hit before
    it is one, this marker's descriptor is the single report, and it is the
    nearest such hit whenever the hits come sorted by distance; or no hit
    is a marker with a score over 0.3 and the single report is "none". *)
Theorem click_picks_first_visible_marker
        (rect : DOMRect)
        (raycast : Vector2 -> Camera -> Euler -> list Object3D -> list Intersection)
        (event : MouseEvent) (s : GlobeScene) :
  isDragging (mouseRef (refs s)) = false ->
  let intersects :=
    raycast (deviceCoordinates rect event) (camera s) (globe_rotation s)
            (GlobeMesh :: map MarkerMesh (dungeonMarkersRef (refs s))) in
  let calls := handleClick rect raycast event s in
  (exists pre i m post,
      intersects = pre ++ i :: post
      /\ object i = MarkerMesh m
      /\ frontFaceScore (getWorldPosition (globe_rotation s) m)
                        (camera_position (camera s)) > 0.3
      /\ (forall j, In j pre -> ~ passesPick (camera s) (globe_rotation s) j)
      /\ calls = [Some (dungeon (userData m))]
      /\ (StronglySorted nearer intersects ->
          forall j, In j intersects ->
                    passesPick (camera s) (globe_rotation s) j ->
                    distance i <= distance j))
  \/ ((forall j, In j intersects -> ~ passesPick (camera s) (globe_rotation s) j)
      /\ calls = [None]).
Proof.
  intros Hd intersects calls.
  unfold calls, handleClick. rewrite Hd.
  fold (deviceCoordinates rect event). fold intersects.
  destruct (scanIntersects_spec (camera s) (globe_rotation s) intersects)
    as [(pre & i & m & post & Hi & Ho & Hs & Hpre & Hr)|[Hall Hr]].
  - left. exists pre, i, m, post. repeat split; auto.
    intros Hsorted j Hj Hp. rewrite Hi in Hj, Hsorted.
    apply in_app_or in Hj. destruct Hj as [Hj|[<-|Hj]].
    + exfalso. exact (Hpre j Hj Hp).
    + lra.
    + exact (sorted_middle_nearest pre post i Hsorted j Hj).
  - right. split; assumption.
Qed.

(** ** Scores seen from the camera of the component *)

Lemma sub_center (v : Vector3) : sub v (mkVector3 0 0 0) = v.
Proof. destruct v as [x y z]. unfold sub; simpl. f_equal; ring. Qed.

Lemma applyEuler_zero (v : Vector3) : applyEuler (mkEuler 0 0 0) v = v.
Proof.
  destruct v as [x y z]. unfold applyEuler; simpl.
  rewrite cos_0, sin_0. f_equal; ring.
Qed.

Lemma normalize_camera : normalize (mkVector3 0 0 10) = mkVector3 0 0 1.
Proof.
  assert (Hl : length (mkVector3 0 0 10) = 10).
  { unfold length; simpl.
    replace (0 * 0 + 0 * 0 + 10 * 10) with (10 * 10) by ring.
    apply sqrt_square. lra. }
  rewrite normalize_nonzero.
  - rewrite Hl. unfold multiplyScalar; simpl. f_equal; field.
  - intros H. inversion H. lra.
Qed.

Lemma score_default_camera (P : Vector3) :
  P <> mkVector3 0 0 0 ->
  frontFaceScore P (mkVector3 0 0 10) = vz P / length P.
Proof.
  intros HP. unfold frontFaceScore. rewrite !sub_center, normalize_camera.
  rewrite normalize_nonzero by assumption.
  pose proof (length_pos P HP).
  unfold dot, multiplyScalar; simpl. field. lra.
Qed.

(** The score of a freshly placed marker on the unrotated globe is the
    cosine between the dungeon's direction and the camera axis. *)
Lemma score_createMarker (d : Dungeon) (i : nat) :
  position d <> mkVector3 0 0 0 ->
  frontFaceScore (getWorldPosition (mkEuler 0 0 0) (createMarker d i))
                 (mkVector3 0 0 10)
  = vz (position d) / length (position d).
Proof.
  intros Hv. unfold getWorldPosition. rewrite applyEuler_zero. simpl.
  pose proof (length_pos _ Hv) as Hl.
  assert (Hn : normalize (position d) <> mkVector3 0 0 0).
  { intros H. pose proof (length_normalize _ Hv) as H1.
    rewrite H in H1.
    rewrite (proj2 (length_zero_iff (mkVector3 0 0 0)) eq_refl) in H1. lra. }
  rewrite score_default_camera
    by (apply multiplyScalar_nonzero; [assumption| unfold GLOBE_RADIUS; lra]).
  rewrite placement_distance by assumption.
  rewrite normalize_nonzero by assumption.
  unfold multiplyScalar, GLOBE_RADIUS; simpl. field. lra.
Qed.

Lemma goblinCave_nonzero : position goblinCave <> mkVector3 0 0 0.
Proof. simpl. intros H. inversion H. lra. Qed.

Lemma undeadCrypt_nonzero : position undeadCrypt <> mkVector3 0 0 0.
Proof. simpl. intros H. inversion H. lra. Qed.

(** On the unrotated globe "Goblin Cave" faces the camera ... *)
Lemma goblinCave_visible (i : nat) :
  frontFaceScore (getWorldPosition (mkEuler 0 0 0) (createMarker goblinCave i))
                 (mkVector3 0 0 10) > 0.3.
Proof.
  rewrite score_createMarker by exact goblinCave_nonzero.
  pose proof (length_pos _ goblinCave_nonzero) as Hpos.
  assert (Hlt : length (position goblinCave) < 5).
  { unfold length; simpl.
    apply Rlt_le_trans with (sqrt (5 * 5)).
    - apply sqrt_lt_1; lra.
    - rewrite sqrt_square; lra. }
  simpl vz. apply Rlt_gt.
  apply Rmult_lt_reg_r with (length (position goblinCave)); [assumption|].
  unfold Rdiv. rewrite Rmult_assoc, Rinv_l by lra. lra.
Qed.

(** ... and "Undead Crypt" is on the far side. *)
Lemma undeadCrypt_hidden (i : nat) :
  frontFaceScore (getWorldPosition (mkEuler 0 0 0) (createMarker undeadCrypt i))
                 (mkVector3 0 0 10) <= 0.3.
Proof.
  rewrite score_createMarker by exact undeadCrypt_nonzero.
  pose proof (length_pos _ undeadCrypt_nonzero) as Hpos.
  simpl vz.
  apply Rmult_le_reg_r with (length (position undeadCrypt)); [assumption|].
  unfold Rdiv. rewrite Rmult_assoc, Rinv_l by lra. lra.
Qed.

(** On the page of the game a grazing ray hits the far-side marker of
    "Undead Crypt" first, then the globe, then the marker of "Goblin Cave":
    the click selects "Goblin Cave". *)
Example click_skips_hidden_marker (rect : DOMRect) (event : MouseEvent)
        (now0 : number) :
  handleClick rect grazingRay event (pageScene now0) = [Some goblinCave].
Proof.
  unfold handleClick. cbn [isDragging mouseRef refs pageScene animate].
  cbv beta iota zeta.
  pose proof (undeadCrypt_hidden 3) as Hh.
  pose proof (goblinCave_visible 0) as Hv.
  unfold frontFaceScore in Hh, Hv.
  apply gtb_false_iff in Hh. apply gtb_true_iff in Hv.
  change (scanIntersects (mkCamera (mkVector3 0 0 10)) (mkEuler 0 0 0)
            [ mkIntersection 4.7
                (MarkerMesh (animateMarker (mkCamera (mkVector3 0 0 10))
                               (mkEuler 0 0 0) None now0
                               (createMarker undeadCrypt 3) 3));
              mkIntersection 5 GlobeMesh;
              mkIntersection 5.2
                (MarkerMesh (animateMarker (mkCamera (mkVector3 0 0 10))
                               (mkEuler 0 0 0) None now0
                               (createMarker goblinCave 0) 0)) ]
          = [Some goblinCave]).
  cbn [scanIntersects object].
  change (getWorldPosition (mkEuler 0 0 0)
            (animateMarker (mkCamera (mkVector3 0 0 10)) (mkEuler 0 0 0) None
               now0 (createMarker undeadCrypt 3) 3))
    with (getWorldPosition (mkEuler 0 0 0) (createMarker undeadCrypt 3)).
  change (getWorldPosition (mkEuler 0 0 0)
            (animateMarker (mkCamera (mkVector3 0 0 10)) (mkEuler 0 0 0) None
               now0 (createMarker goblinCave 0) 0))
    with (getWorldPosition (mkEuler 0 0 0) (createMarker goblinCave 0)).
  cbn [camera_position] in *.
  rewrite Hh, Hv. reflexivity.
Qed.

(** C1 on the page of the game, for a grazing ray that hits a far-side
    marker, the globe and a near-side marker, in this order. *)
Lemma click_picks_first_visible_marker_witness :
  let s := pageScene 0 in
  let calls :=
    handleClick (mkDOMRect 0 0 800 600) grazingRay (mkMouseEvent 400 300) s in
  isDragging (mouseRef (refs s)) = false
  /\ ((exists d, calls = [Some d]) \/ calls = [None]).
Proof.
  intros s calls. split; [reflexivity|].
  destruct (click_picks_first_visible_marker
              (mkDOMRect 0 0 800 600) grazingRay (mkMouseEvent 400 300) s eq_refl)
    as [(pre & i & m & post & _ & _ & _ & _ & Hc & _)|[_ Hc]].
  - left. exists (dungeon (userData m)). exact Hc.
  - right. exact Hc.
Defined.

(** C7: a click while the drag flag is set makes no call of the
    selection callback; any other click makes exactly one, with a
    descriptor or with none. *)
Theorem click_reports_once_unless_dragging
        (rect : DOMRect)
        (raycast : Vector2 -> Camera -> Euler -> list Object3D -> list Intersection)
        (event : MouseEvent) (s : GlobeScene) :
  exists report : option Dungeon,
    handleClick rect raycast event s
    = if isDragging (mouseRef (refs s)) then [] else [report].
Proof.
  unfold handleClick. destruct (isDragging (mouseRef (refs s))).
  - exists None. reflexivity.
  - match goal with
    | |- context [scanIntersects ?c ?r ?l] =>
        destruct (scanIntersects_spec c r l)
          as [(pre & i & m & post & _ & _ & _ & _ & Hr)|[_ Hr]];
        rewrite Hr; eexists; reflexivity
    end.
Qed.

(** ** The animation pass *)

Lemma animate_markers (now : number) (s : GlobeScene) :
  dungeonMarkersRef (refs (animate now s))
  = mapi (animateMarker (camera s)
            (mkEuler (rot_x (rotationRef (refs s))) (rot_y (rotationRef (refs s)))
                     (ez (globe_rotation s)))
            (selectedDungeon s) now)
         (dungeonMarkersRef (refs s)).
Proof. reflexivity. Qed.

Lemma animate_frame_state (now : number) (s : GlobeScene) :
  globe_rotation (animate now s)
  = mkEuler (rot_x (rotationRef (refs s))) (rot_y (rotationRef (refs s)))
            (ez (globe_rotation s))
  /\ camera (animate now s) = camera s
  /\ selectedDungeon (animate now s) = selectedDungeon s
  /\ listeners (animate now s) = listeners s
  /\ rafPending (animate now s) = S (rafPending s)
  /\ framesRendered (animate now s) = S (framesRendered s)
  /\ rotationRef (refs (animate now s)) = rotationRef (refs s)
  /\ mouseRef (refs (animate now s)) = mouseRef (refs s).
Proof. repeat split. Qed.

Lemma animateMarker_material (cam : Camera) (rot : Euler)
      (selected : option Dungeon) (now : number) (m : Marker) (i : nat) :
  let score := frontFaceScore (getWorldPosition rot m) (camera_position cam) in
  (score > 0.3 ->
   opacity (material (animateMarker cam rot selected now m i)) = 1
   /\ emissiveIntensity (material (animateMarker cam rot selected now m i))
      = 0.4 + sin (now * 0.001 + INR i) * 0.3)
  /\ (score <= 0.3 ->
      opacity (material (animateMarker cam rot selected now m i)) = 0.15
      /\ emissiveIntensity (material (animateMarker cam rot selected now m i))
         = 0.1).
Proof.
  intros score. unfold score, frontFaceScore, animateMarker.
  cbv zeta. cbn [material opacity emissiveIntensity].
  split; intros H.
  - apply gtb_true_iff in H. rewrite H. split; reflexivity.
  - apply gtb_false_iff in H. rewrite H. split; reflexivity.
Qed.

(** The scale rule of [animateMarker], in terms of the selection the
    closure holds. *)
Lemma animateMarker_scale (cam : Camera) (rot : Euler)
      (selected : option Dungeon) (now : number) (m : Marker) (i : nat) :
  let score := frontFaceScore (getWorldPosition rot m) (camera_position cam) in
  scale (animateMarker cam rot selected now m i)
  = match selected with
    | Some sel =>
        if eqb_number (id (dungeon (userData m))) (id sel) && gtb score 0.3
        then setScalar (1.5 + sin (now * 0.005) * 0.2)
        else setScalar 1
    | None => setScalar 1
    end.
Proof. destruct selected; reflexivity. Qed.

(** C2: a frame gives every marker, from its score at the world position
    it has in that frame, opacity 1 and emissive intensity
    0.4 + sin(now * 0.001 + index) * 0.3 when the score exceeds 0.3, and
    opacity 0.15 and emissive intensity 0.1 otherwise. *)
Theorem frame_styles_marker_by_score (now : number) (s : GlobeScene)
        (i : nat) (m : Marker) :
  nth_error (dungeonMarkersRef (refs s)) i = Some m ->
  let s' := animate now s in
  let P := getWorldPosition (globe_rotation s') m in
  let score := frontFaceScore P (camera_position (camera s')) in
  exists m',
    nth_error (dungeonMarkersRef (refs s')) i = Some m'
    /\ marker_position m' = marker_position m
    /\ userData m' = userData m
    /\ (score > 0.3 ->
        opacity (material m') = 1
        /\ emissiveIntensity (material m')
           = 0.4 + sin (now * 0.001 + INR i) * 0.3)
    /\ (score <= 0.3 ->
        opacity (material m') = 0.15
        /\ emissiveIntensity (material m') = 0.1).
Proof.
  intros Hm s' P score.
  eexists. split.
  - unfold s'. rewrite animate_markers, nth_error_mapi, Hm. reflexivity.
  - split; [reflexivity|]. split; [reflexivity|].
    apply animateMarker_material.
Qed.

(** C2 on the page of the game: the next frame draws the marker of
    "Goblin Cave" opaque. *)
Lemma frame_styles_marker_by_score_witness :
  exists m m',
    nth_error (dungeonMarkersRef (refs (pageScene 0))) 0 = Some m
    /\ dungeon (userData m) = goblinCave
    /\ nth_error (dungeonMarkersRef (refs (animate 1000 (pageScene 0)))) 0
       = Some m'
    /\ opacity (material m') = 1.
Proof.
  eexists.
  destruct (frame_styles_marker_by_score 1000 (pageScene 0) 0 _ eq_refl)
    as (m' & Hn & _ & _ & Hvis & _).
  exists m'. split; [reflexivity|]. split; [reflexivity|].
  split; [exact Hn|].
  exact (proj1 (Hvis (goblinCave_visible 0))).
Defined.

(** ** What the closures of a mounted scene keep *)

Lemma In_mapi_from {A B : Type} (f : A -> nat -> B) (l : list A) (b : B) :
  forall k, In b (mapi_from f k l) -> exists a j, In a l /\ b = f a j.
Proof.
  induction l as [|a l IH]; intros k; simpl; [tauto|].
  intros [<-|H].
  - exists a, k. auto.
  - destruct (IH _ H) as (a' & j & Ha & ->). exists a', j. auto.
Qed.

Lemma iter_animate (now : number) (n : nat) (s : GlobeScene) :
  selectedDungeon (Nat.iter n (animate now) s) = selectedDungeon s
  /\ listeners (Nat.iter n (animate now) s) = listeners s
  /\ rafPending (Nat.iter n (animate now) s) = (n + rafPending s)%nat
  /\ framesRendered (Nat.iter n (animate now) s) = (n + framesRendered s)%nat.
Proof.
  induction n as [|n IH]; simpl; [repeat split|].
  destruct IH as (H1 & H2 & H3 & H4). rewrite H1, H2, H3, H4.
  repeat split; lia.
Qed.

Lemma runFrame_keeps (now : number) (s : GlobeScene) :
  selectedDungeon (runFrame now s) = selectedDungeon s
  /\ listeners (runFrame now s) = listeners s
  /\ rafPending (runFrame now s) = rafPending s
  /\ framesRendered (runFrame now s) = (rafPending s + framesRendered s)%nat.
Proof.
  unfold runFrame.
  destruct (iter_animate now (rafPending s) (set_rafPending 0 s))
    as (H1 & H2 & H3 & H4).
  rewrite H1, H2, H3, H4. simpl. repeat split. lia.
Qed.

Lemma cleanup_keeps (b : bool) (s : GlobeScene) :
  selectedDungeon (cleanup b s) = selectedDungeon s
  /\ rafPending (cleanup b s) = rafPending s
  /\ framesRendered (cleanup b s) = framesRendered s.
Proof. unfold cleanup. destruct b; repeat split. Qed.

Lemma removeEventListener_absent (t : EventType) (l : list EventType) :
  ~ In t (removeEventListener t l).
Proof.
  unfold removeEventListener. intros H. apply filter_In in H.
  destruct H as [_ H]. destruct t; discriminate.
Qed.

Lemma removeEventListener_subset (t t' : EventType) (l : list EventType) :
  In t' (removeEventListener t l) -> In t' l.
Proof. unfold removeEventListener. intros H. apply filter_In in H. tauto. Qed.

(** After the cleanup no listener of the four kinds is registered, whatever
    was registered before. *)
Lemma cleanup_listeners (b : bool) (s : GlobeScene) :
  listeners (cleanup b s) = [].
Proof.
  assert (H : forall t, ~ In t (listeners (cleanup b s))).
  { intros t Ht.
    assert (Hl : In t (removeEventListener click
                         (removeEventListener mouseup
                            (removeEventListener mousemove
                               (removeEventListener mousedown (listeners s)))))).
    { unfold cleanup in Ht. destruct b; exact Ht. }
    destruct t.
    - do 3 apply removeEventListener_subset in Hl.
      exact (removeEventListener_absent _ _ Hl).
    - do 2 apply removeEventListener_subset in Hl.
      exact (removeEventListener_absent _ _ Hl).
    - apply removeEventListener_subset in Hl.
      exact (removeEventListener_absent _ _ Hl).
    - exact (removeEventListener_absent _ _ Hl). }
  destruct (listeners (cleanup b s)) as [|t l]; [reflexivity|].
  exfalso. apply (H t). left. reflexivity.
Qed.

Lemma dispatch_keeps
      (rect : DOMRect)
      (raycast : Vector2 -> Camera -> Euler -> list Object3D -> list Intersection)
      (t : EventType) (e : MouseEvent) (s : GlobeScene) :
  selectedDungeon (fst (dispatch rect raycast t e s)) = selectedDungeon s
  /\ rafPending (fst (dispatch rect raycast t e s)) = rafPending s
  /\ framesRendered (fst (dispatch rect raycast t e s)) = framesRendered s
  /\ listeners (fst (dispatch rect raycast t e s)) = listeners s.
Proof.
  unfold dispatch. destruct (existsb _ _); [|repeat split].
  destruct t; simpl; try (repeat split; fail).
  unfold handleMouseMove. destruct (negb _); repeat split.
Qed.

Section PageInvariants.

Variable rect : DOMRect.
Variable raycast :
  Vector2 -> Camera -> Euler -> list Object3D -> list Intersection.
Variable numberToString : number -> string.

Lemma initialApp_mountedView (now0 : number) : mountedView (initialApp now0).
Proof. eexists. split; [reflexivity|]. split; reflexivity. Qed.

Lemma appStep_mountedView (a : App) (ev : AppEvent) :
  mountedView a -> mountedView (appStep rect raycast numberToString a ev).
Proof.
  intros (s & Hv & Hs & Hr). unfold mountedView.
  destruct ev as [|t e|now| |d|b]; simpl; rewrite Hv; simpl.
  - exists s. auto.
  - destruct (dispatch rect raycast t e s) as [s' calls] eqn:Hd.
    destruct (dispatch_keeps rect raycast t e s) as (H1 & H2 & _).
    rewrite Hd in H1, H2. simpl in *.
    exists s'. unfold rerender. repeat split; congruence.
  - destruct (runFrame_keeps now s) as (H1 & _ & H3 & _).
    eexists. split; [reflexivity|]. split; congruence.
  - exists s. auto.
  - exists s. auto.
  - destruct (cleanup_keeps b s) as (H1 & H2 & _).
    eexists. split; [reflexivity|]. split; congruence.
Qed.

Lemma appRun_mountedView (evs : list AppEvent) :
  forall a, mountedView a -> mountedView (appRun rect raycast numberToString a evs).
Proof.
  induction evs as [|ev evs IH]; intros a Ha; [exact Ha|].
  simpl. apply IH. apply appStep_mountedView. exact Ha.
Qed.

End PageInvariants.

Lemma animate_unit_scale (now : number) (s : GlobeScene) (m : Marker) :
  selectedDungeon s = None ->
  In m (dungeonMarkersRef (refs (animate now s))) ->
  scale m = setScalar 1.
Proof.
  intros Hs Hm. rewrite animate_markers, Hs in Hm.
  apply In_mapi_from in Hm. destruct Hm as (m0 & j & _ & ->). reflexivity.
Qed.

(** ** The render loop after the cleanup *)

Lemma appRun_app
      (rect : DOMRect)
      (raycast : Vector2 -> Camera -> Euler -> list Object3D -> list Intersection)
      (numberToString : number -> string) (a : App) (evs evs' : list AppEvent) :
  appRun rect raycast numberToString a (evs ++ evs')
  = appRun rect raycast numberToString
           (appRun rect raycast numberToString a evs) evs'.
Proof. unfold appRun. apply fold_left_app. Qed.

Lemma appRun_frames
      (rect : DOMRect)
      (raycast : Vector2 -> Camera -> Euler -> list Object3D -> list Intersection)
      (numberToString : number -> string) (nows : list number) :
  forall g s,
    rafPending s = 1%nat ->
    exists s',
      appRun rect raycast numberToString (mkApp g (Some s)) (map Frame nows)
      = mkApp g (Some s')
      /\ rafPending s' = 1%nat
      /\ listeners s' = listeners s
      /\ framesRendered s' = (framesRendered s + List.length nows)%nat.
Proof.
  induction nows as [|now nows IH]; intros g s Hr; simpl.
  - exists s. repeat split; auto.
  - destruct (runFrame_keeps now s) as (_ & Hl & Hp & Hf).
    destruct (IH g (runFrame now s)) as (s' & Hrun & Hr' & Hl' & Hf');
      [congruence|].
    exists s'. split; [exact Hrun|]. split; [exact Hr'|].
    split; [congruence|]. rewrite Hf', Hf, Hr. lia.
Qed.

(** C4 (what the code does): the cleanup removes the four pointer
    listeners, but the call of [animate] that waits in the animation-frame
    queue stays there: on every display frame after the unmount [animate]
    runs again, draws, and requests the next frame. *)
Theorem render_loop_survives_unmount
        (rect : DOMRect)
        (raycast : Vector2 -> Camera -> Euler -> list Object3D -> list Intersection)
        (numberToString : number -> string)
        (now0 : number) (evs : list AppEvent) (mountRef_current : bool)
        (nows : list number) :
  let before := appRun rect raycast numberToString (initialApp now0) evs in
  let after :=
    appRun rect raycast numberToString before
           (Unmount mountRef_current :: map Frame nows) in
  exists s0 s,
    view before = Some s0
    /\ view after = Some s
    /\ listeners s = []
    /\ rafPending s = 1%nat
    /\ framesRendered s = (framesRendered s0 + List.length nows)%nat.
Proof.
  intros before after.
  destruct (appRun_mountedView rect raycast numberToString evs _
              (initialApp_mountedView now0)) as (s0 & Hv & _ & Hr).
  fold before in Hv.
  destruct (cleanup_keeps mountRef_current s0) as (_ & Hp & Hf).
  destruct (appRun_frames rect raycast numberToString nows (game before)
              (cleanup mountRef_current s0)) as (s & Hrun & Hr' & Hl & Hf');
    [congruence|].
  exists s0, s. split; [exact Hv|].
  assert (Hafter : after = mkApp (game before) (Some s)).
  { unfold after. simpl. rewrite Hv. simpl. exact Hrun. }
  rewrite Hafter. simpl. split; [reflexivity|].
  split; [rewrite Hl; apply cleanup_listeners|].
  split; [exact Hr'|]. rewrite Hf', Hf. reflexivity.
Qed.

(** ** The selection the frames see, on the page of the game *)

Lemma handleClick_single_marker
      (rect : DOMRect)
      (raycast : Vector2 -> Camera -> Euler -> list Object3D -> list Intersection)
      (e : MouseEvent) (s : GlobeScene) (m : Marker) (dist : number) :
  isDragging (mouseRef (refs s)) = false ->
  raycast (deviceCoordinates rect e) (camera s) (globe_rotation s)
          (GlobeMesh :: map MarkerMesh (dungeonMarkersRef (refs s)))
  = [mkIntersection dist (MarkerMesh m)] ->
  frontFaceScore (getWorldPosition (globe_rotation s) m)
                 (camera_position (camera s)) > 0.3 ->
  handleClick rect raycast e s = [Some (dungeon (userData m))].
Proof.
  intros Hd Hray Hscore. unfold handleClick. rewrite Hd.
  fold (deviceCoordinates rect e). rewrite Hray.
  cbn [scanIntersects object].
  unfold frontFaceScore in Hscore. apply gtb_true_iff in Hscore.
  rewrite Hscore. reflexivity.
Qed.

Lemma appStep_click
      (rect : DOMRect)
      (raycast : Vector2 -> Camera -> Euler -> list Object3D -> list Intersection)
      (numberToString : number -> string)
      (a : App) (s : GlobeScene) (e : MouseEvent) :
  view a = Some s ->
  existsb (EventType_eqb click) (listeners s) = true ->
  appStep rect raycast numberToString a (Pointer click e)
  = mkApp (fold_left (fun g d => handleDungeonSelect d g)
                     (handleClick rect raycast e s) (game a))
          (Some s).
Proof.
  intros Hv Hl. simpl. rewrite Hv. unfold dispatch. rewrite Hl. reflexivity.
Qed.

Lemma initialApp_pageScene (now0 : number) :
  initialApp now0 = mkApp initialGame (Some (pageScene now0)).
Proof. reflexivity. Qed.

(** On the page of the game, a click whose ray hits the marker of
    "Goblin Cave" makes the facade select it; the scene is the same. *)
Lemma page_click_selects (rect : DOMRect) (numberToString : number -> string)
      (now0 : number) (e : MouseEvent) :
  appStep rect hitFirstMarker numberToString (initialApp now0) (Pointer click e)
  = mkApp (handleDungeonSelect (Some goblinCave) initialGame)
          (Some (pageScene now0)).
Proof.
  rewrite initialApp_pageScene.
  rewrite (appStep_click rect hitFirstMarker numberToString
             (mkApp initialGame (Some (pageScene now0))) (pageScene now0) e
             eq_refl eq_refl).
  set (m1 := animateMarker (mkCamera (mkVector3 0 0 10)) (mkEuler 0 0 0)
                           None now0 (createMarker goblinCave 0) 0).
  assert (Hclick : handleClick rect hitFirstMarker e (pageScene now0)
                   = [Some (dungeon (userData m1))]).
  { apply handleClick_single_marker with (dist := 4.7).
    - reflexivity.
    - reflexivity.
    - exact (goblinCave_visible 0). }
  rewrite Hclick. reflexivity.
Qed.

(** C3 (what the code does): in every state the page reaches, whatever
    the facade's current selection is, the closures of the scene hold the
    selection of the first render, none, and a frame gives every marker
    unit scale; a click on the marker of "Goblin Cave" is enough to make
    the current selection differ from the one the frames read. *)
Theorem frames_read_mount_time_selection
        (rect : DOMRect) (numberToString : number -> string) (now0 : number) :
  (forall (raycast : Vector2 -> Camera -> Euler -> list Object3D
                     -> list Intersection)
          (evs : list AppEvent),
      let a := appRun rect raycast numberToString (initialApp now0) evs in
      exists s,
        view a = Some s
        /\ selectedDungeon s = None
        /\ forall now m,
            In m (dungeonMarkersRef (refs (animate now s))) ->
            scale m = setScalar 1)
  /\ (let a := appRun rect hitFirstMarker numberToString (initialApp now0)
                      [Pointer click (mkMouseEvent 400 300)] in
      game_selectedDungeon (game a) = Some goblinCave
      /\ option_map selectedDungeon (view a) = Some None).
Proof.
  split.
  - intros raycast evs a.
    destruct (appRun_mountedView rect raycast numberToString evs _
                (initialApp_mountedView now0)) as (s & Hv & Hs & _).
    exists s. split; [exact Hv|]. split; [exact Hs|].
    intros now m. apply animate_unit_scale. exact Hs.
  - unfold appRun. cbn [fold_left]. rewrite page_click_selects.
    split; reflexivity.
Qed.

(** C8 (what the code does): on the page of the game, after a click has
    selected "Goblin Cave", the next frame finds the marker of the
    selected dungeon with a score over 0.3 and still gives it unit scale,
    not the pulse. *)
Theorem selected_visible_marker_keeps_unit_scale
        (rect : DOMRect) (numberToString : number -> string)
        (now0 now : number) :
  let a :=
    appRun rect hitFirstMarker numberToString (initialApp now0)
           [Pointer click (mkMouseEvent 400 300); Frame now] in
  game_selectedDungeon (game a) = Some goblinCave
  /\ exists s m,
      view a = Some s
      /\ nth_error (dungeonMarkersRef (refs s)) 0 = Some m
      /\ id (dungeon (userData m)) = id goblinCave
      /\ frontFaceScore (getWorldPosition (globe_rotation s) m)
                        (camera_position (camera s)) > 0.3
      /\ scale m = setScalar 1
      /\ scale m <> setScalar (1.5 + sin (now * 0.005) * 0.2).
Proof.
  intros a.
  assert (Ha : a = mkApp (handleDungeonSelect (Some goblinCave) initialGame)
                         (Some (animate now (set_rafPending 0 (pageScene now0))))).
  { unfold a, appRun. cbn [fold_left]. rewrite page_click_selects. reflexivity. }
  rewrite Ha. split; [reflexivity|].
  exists (animate now (set_rafPending 0 (pageScene now0))).
  exists (animateMarker (mkCamera (mkVector3 0 0 10)) (mkEuler 0 0 0) None now
            (animateMarker (mkCamera (mkVector3 0 0 10)) (mkEuler 0 0 0)
                           None now0 (createMarker goblinCave 0) 0) 0).
  split; [reflexivity|]. split; [reflexivity|]. split; [reflexivity|].
  split; [exact (goblinCave_visible 0)|]. split; [reflexivity|].
  intros H. injection H as H _ _.
  pose proof (SIN_bound (now * 0.005)) as [Hlo _]. lra.
Qed.

(** ** Raids and the game log *)

Lemma length_slice_last {A : Type} (n : nat) (l : list A) :
  List.length (slice_last n l) = Nat.min n (List.length l).
Proof. unfold slice_last. rewrite length_skipn. lia. Qed.

Lemma handleRaid_log_bound (numberToString : number -> string)
      (p : Player) (d : Dungeon) (g : GameState) :
  (List.length (gameLog g) <= 5)%nat ->
  (List.length (gameLog (handleRaid numberToString p d g)) <= 5)%nat.
Proof.
  intros H. unfold handleRaid. destruct (geb _ _); [|exact H].
  cbn [gameLog]. rewrite length_app, length_slice_last.
  cbn [List.length]. lia.
Qed.

(** C9: a raid on a dungeon that requires more strength than the player
    has changes neither the player nor the log; a raid the player is
    strong enough for adds level * 10 gold and level * 5 experience,
    leaves strength and level as they were, and puts one new entry at the
    end of the log, behind the last four entries it had. *)
Theorem handleRaid_threshold (numberToString : number -> string)
        (d : Dungeon) (g : GameState) :
  let g' := handleRaid numberToString (player g) d g in
  (requiredStrength d > strength (player g) -> g' = g)
  /\ (strength (player g) >= requiredStrength d ->
      gold (player g') = gold (player g) + level d * 10
      /\ experience (player g') = experience (player g) + level d * 5
      /\ strength (player g') = strength (player g)
      /\ player_level (player g') = player_level (player g)
      /\ game_selectedDungeon g' = game_selectedDungeon g
      /\ gameLog g'
         = slice_last 4 (gameLog g)
             ++ [raidMessage numberToString d (level d * 10) (level d * 5)]
      /\ List.length (gameLog g') = S (Nat.min 4 (List.length (gameLog g)))).
Proof.
  intros g'. unfold g', handleRaid. split; intros H.
  - assert (Hf : geb (strength (player g)) (requiredStrength d) = false)
      by (apply geb_false_iff; lra).
    rewrite Hf. reflexivity.
  - apply geb_true_iff in H. rewrite H. cbn [player gold experience strength
      player_level game_selectedDungeon gameLog].
    repeat split.
    rewrite length_app, length_slice_last. cbn [List.length]. lia.
Qed.

(** C9 for the first raid of the game on "Goblin Cave" by a player of
    strength 12, and for the same raid by the player of the first render. *)
Lemma handleRaid_threshold_witness :
  let strong := mkGameState (mkPlayer 12 3 1 0) (Some goblinCave) [] in
  let g' := handleRaid (fun _ => "?"%string) (player strong) goblinCave strong in
  handleRaid (fun _ => "?"%string) (player initialGame) goblinCave initialGame
  = initialGame
  /\ gold (player g') = 0 + 1 * 10
  /\ experience (player g') = 3 + 1 * 5.
Proof.
  intros strong g'. split.
  - apply (proj1 (handleRaid_threshold (fun _ => "?"%string) goblinCave initialGame)).
    simpl. lra.
  - assert (H : strength (player strong) >= requiredStrength goblinCave)
      by (simpl; lra).
    destruct (proj2 (handleRaid_threshold (fun _ => "?"%string) goblinCave strong) H)
      as (Hg & He & _).
    split; [exact Hg|exact He].
Defined.

Lemma appStep_log_bound
      (rect : DOMRect)
      (raycast : Vector2 -> Camera -> Euler -> list Object3D -> list Intersection)
      (numberToString : number -> string) (a : App) (ev : AppEvent) :
  (List.length (gameLog (game a)) <= 5)%nat ->
  (List.length (gameLog (game (appStep rect raycast numberToString a ev))) <= 5)%nat.
Proof.
  intros H. destruct ev as [|t e|now| |d|b]; simpl; auto.
  - destruct (view a) as [s|]; [|exact H].
    destruct (dispatch rect raycast t e s) as [s' calls]. simpl.
    clear s'. revert H. generalize (game a).
    induction calls as [|c calls IH]; intros g Hg; simpl; auto.
  - unfold raidButton. destruct (game_selectedDungeon (game a)); [|exact H].
    destruct (geb _ _); [|exact H].
    apply handleRaid_log_bound. exact H.
  - apply handleRaid_log_bound. exact H.
Qed.

(** C10: the log starts empty, a successful raid replaces it by its last
    four entries followed by one new entry, nothing else writes it, and so
    it never holds more than five entries in any state the page reaches. *)
Theorem gameLog_at_most_five
        (rect : DOMRect)
        (raycast : Vector2 -> Camera -> Euler -> list Object3D -> list Intersection)
        (numberToString : number -> string)
        (now0 : number) (evs : list AppEvent) :
  gameLog (game (initialApp now0)) = []
  /\ (List.length
        (gameLog (game (appRun rect raycast numberToString (initialApp now0) evs)))
      <= 5)%nat
  /\ (forall p d g,
        gameLog (handleRaid numberToString p d g)
        = if geb (strength p) (requiredStrength d)
          then slice_last 4 (gameLog g)
                 ++ [raidMessage numberToString d (level d * 10) (level d * 5)]
          else gameLog g).
Proof.
  split; [reflexivity|]. split.
  - assert (H : forall a,
               (List.length (gameLog (game a)) <= 5)%nat ->
               (List.length
                  (gameLog (game (appRun rect raycast numberToString a evs)))
                <= 5)%nat).
    { induction evs as [|ev evs IH]; intros a Ha; [exact Ha|].
      simpl. apply IH. apply appStep_log_bound. exact Ha. }
    apply H. simpl. lia.
  - intros p d g. unfold handleRaid. destruct (geb _ _); reflexivity.
Qed.

(** ** Rotation of the globe *)

(** The rotation keeps every marker at its distance from the center. *)
Lemma length_applyEuler (e : Euler) (v : Vector3) :
  length (applyEuler e v) = length v.
Proof.
  destruct e as [x y z], v as [vx0 vy0 vz0].
  unfold length, applyEuler; cbn [ex ey ez vx vy vz].
  f_equal.
  pose proof (sin2_cos2 x) as Hx. pose proof (sin2_cos2 y) as Hy.
  pose proof (sin2_cos2 z) as Hz. unfold Rsqr in Hx, Hy, Hz.
  set (a := cos x) in *. set (b := sin x) in *.
  set (c := cos y) in *. set (d := sin y) in *.
  set (e := cos z) in *. set (f := sin z) in *.
  clearbody a b c d e f.
  (* the rotation about z, then about y, then about x *)
  set (p := e * vx0 - f * vy0). set (q := f * vx0 + e * vy0).
  set (r := - d * p + c * vz0).
  transitivity ((b * b + a * a) * (q * q + r * r)
                + (c * p + d * vz0) * (c * p + d * vz0));
    [unfold r, p, q; ring|].
  rewrite Hx.
  transitivity ((d * d + c * c) * (p * p + vz0 * vz0) + q * q);
    [unfold r, q; ring|].
  rewrite Hy.
  transitivity ((f * f + e * e) * (vx0 * vx0 + vy0 * vy0) + vz0 * vz0);
    [unfold p, q; ring|].
  rewrite Hz. ring.
Qed.

(** A half turn in yaw mirrors the world position of a marker through the
    vertical axis, so its score changes sign. *)
Lemma half_turn_flips_score (m : Marker) :
  frontFaceScore (getWorldPosition (mkEuler 0 PI 0) m) (mkVector3 0 0 10)
  = - frontFaceScore (getWorldPosition (mkEuler 0 0 0) m) (mkVector3 0 0 10).
Proof.
  unfold getWorldPosition. rewrite applyEuler_zero.
  set (v := marker_position m).
  assert (Hrot : applyEuler (mkEuler 0 PI 0) v
                 = mkVector3 (- vx v) (vy v) (- vz v)).
  { unfold applyEuler; cbn [ex ey ez].
    rewrite cos_0, sin_0, cos_PI, sin_PI. f_equal; ring. }
  pose proof (length_applyEuler (mkEuler 0 PI 0) v) as Hlen.
  rewrite Hrot in *.
  destruct (Req_dec_T (length v) 0) as [H0|H0].
  - apply length_zero_iff in H0. rewrite H0. cbn [vx vy vz].
    replace (- 0) with 0 by ring.
    unfold frontFaceScore. rewrite !sub_center, normalize_zero, normalize_camera.
    unfold dot; simpl. ring.
  - assert (Hv : v <> mkVector3 0 0 0) by (rewrite <- length_zero_iff; auto).
    assert (Hv' : mkVector3 (- vx v) (vy v) (- vz v) <> mkVector3 0 0 0).
    { rewrite <- length_zero_iff, Hlen. exact H0. }
    rewrite !score_default_camera by assumption.
    rewrite Hlen. cbn [vz]. field. exact H0.
Qed.

(** Scenario: on the page of the game, half a turn in yaw hides the
    marker of "Goblin Cave": the frame draws it at opacity 0.15. *)
Example half_turn_hides_goblinCave (now : number) :
  opacity (material (animateMarker (mkCamera (mkVector3 0 0 10))
                                   (mkEuler 0 PI 0) None now
                                   (createMarker goblinCave 0) 0)) = 0.15.
Proof.
  apply (proj2 (animateMarker_material (mkCamera (mkVector3 0 0 10))
                  (mkEuler 0 PI 0) None now (createMarker goblinCave 0) 0)).
  cbn [camera_position]. rewrite half_turn_flips_score.
  pose proof (goblinCave_visible 0). lra.
Qed.


(** * Further properties of the code *)

(** ** Drag gestures *)



Lemma drag_keeps (events : list MouseEvent) :
  forall s,
    dungeonMarkersRef (refs (drag events s)) = dungeonMarkersRef (refs s)
    /\ isDragging (mouseRef (refs (drag events s))) = isDragging (mouseRef (refs s))
    /\ camera (drag events s) = camera s
    /\ selectedDungeon (drag events s) = selectedDungeon s
    /\ listeners (drag events s) = listeners s
    /\ rafPending (drag events s) = rafPending s
    /\ framesRendered (drag events s) = framesRendered s.
Proof.
  induction events as [|e events IH]; intros s; [repeat split|].
  change (drag (e :: events) s) with (drag events (handleMouseMove e s)).
  destruct (IH (handleMouseMove e s)) as (H1 & H2 & H3 & H4 & H5 & H6 & H7).
  rewrite H1, H2, H3, H4, H5, H6, H7.
  unfold handleMouseMove. destruct (isDragging (mouseRef (refs s))) eqn:Hd; simpl;
    rewrite ?Hd; repeat split.
Qed.


Lemma drag_not_dragging (events : list MouseEvent) :
  forall s, isDragging (mouseRef (refs s)) = false -> drag events s = s.
Proof.
  induction events as [|e events IH]; intros s Hd; [reflexivity|].
  change (drag (e :: events) s) with (drag events (handleMouseMove e s)).
  assert (He : handleMouseMove e s = s)
    by (unfold handleMouseMove; rewrite Hd; reflexivity).
  rewrite He. apply IH. exact Hd.
Qed.

(** X2: once the pointer is up, pointer-moves change nothing in the scene,
    however many arrive; in particular they do not turn the globe. *)
Theorem moves_after_pointer_up_do_nothing (events : list MouseEvent)
        (s : GlobeScene) :
  drag events (handleMouseUp s) = handleMouseUp s.
Proof. apply drag_not_dragging. reflexivity. Qed.

(** X3: between pointer-down and pointer-up (with any pointer-moves in
    between) a click makes no call of the selection callback; once the
    pointer-up has been handled, a click makes exactly one call, also when
    it closes a drag gesture. *)
Theorem click_ignored_only_while_pointer_down
        (rect : DOMRect)
        (raycast : Vector2 -> Camera -> Euler -> list Object3D -> list Intersection)
        (e0 e : MouseEvent) (events : list MouseEvent) (s : GlobeScene) :
  handleClick rect raycast e (drag events (handleMouseDown e0 s)) = []
  /\ exists report,
      handleClick rect raycast e (gesture e0 events s) = [report].
Proof.
  split.
  - unfold handleClick.
    destruct (drag_keeps events (handleMouseDown e0 s)) as (_ & Hd & _).
    rewrite Hd. reflexivity.
  - unfold handleClick, gesture. cbn [handleMouseUp set_refs refs mouseRef isDragging].
    match goal with
    | |- context [scanIntersects ?c ?r ?l] =>
        destruct (scanIntersects_spec c r l)
          as [(pre & i & m & post & _ & _ & _ & _ & Hr)|[_ Hr]];
        rewrite Hr; eexists; reflexivity
    end.
Qed.

(** ** The click: device coordinates and the hits that count *)



Lemma scanIntersects_filter (cam : Camera) (rot : Euler)
      (l : list Intersection) :
  scanIntersects cam rot (filter isMarkerHit l) = scanIntersects cam rot l.
Proof.
  induction l as [|i l IH]; [reflexivity|].
  cbn [filter]. unfold isMarkerHit at 1.
  destruct (object i) as [|m] eqn:Ho.
  - rewrite IH. cbn [scanIntersects]. rewrite Ho. reflexivity.
  - cbn [scanIntersects]. rewrite Ho, IH. reflexivity.
Qed.

(** X5: the hits on the globe play no part in a pick: a ray caster that
    drops them gives the same report, so the sphere never shields a marker
    that lies behind its surface along the ray. *)
Theorem globe_hits_never_block_a_pick
        (rect : DOMRect)
        (raycast : Vector2 -> Camera -> Euler -> list Object3D -> list Intersection)
        (e : MouseEvent) (s : GlobeScene) :
  handleClick rect
              (fun ndc cam rot objs => filter isMarkerHit (raycast ndc cam rot objs))
              e s
  = handleClick rect raycast e s.
Proof.
  unfold handleClick. destruct (isDragging (mouseRef (refs s))); [reflexivity|].
  apply scanIntersects_filter.
Qed.

(** ** Frames *)

Lemma mapi_from_compose {A B C : Type} (f : A -> nat -> B) (g : B -> nat -> C)
      (l : list A) :
  forall k,
    mapi_from g k (mapi_from f k l) = mapi_from (fun a i => g (f a i) i) k l.
Proof.
  induction l as [|a l IH]; intros k; [reflexivity|].
  simpl. rewrite IH. reflexivity.
Qed.

(** X6: a frame restyles the markers from their base positions, their
    descriptors, the stored orientation and the time alone: what an
    earlier frame wrote is overwritten, so two frames in a row leave the
    markers as the second frame alone would, and drawing the same frame
    twice changes nothing the first did not. *)
Theorem frame_overwrites_previous_styling (now now' : number) (s : GlobeScene) :
  dungeonMarkersRef (refs (animate now (animate now' s)))
  = dungeonMarkersRef (refs (animate now s))
  /\ globe_rotation (animate now (animate now' s)) = globe_rotation (animate now s)
  /\ dungeonMarkersRef (refs (animate now (animate now s)))
     = dungeonMarkersRef (refs (animate now s)).
Proof.
  assert (H : forall t t',
             dungeonMarkersRef (refs (animate t (animate t' s)))
             = dungeonMarkersRef (refs (animate t s))).
  { intros t t'. rewrite (animate_markers t (animate t' s)).
    rewrite (animate_markers t' s), (animate_markers t s).
    unfold mapi. rewrite mapi_from_compose. reflexivity. }
  split; [apply H|]. split; [reflexivity|apply H].
Qed.

(** X7: after any frame every marker has opacity 1 or 0.15, a transparent
    material, an emissive intensity between 0.1 and 0.7, and a uniform
    scale that is 1 or lies between 1.3 and 1.7. *)
Theorem frame_styling_ranges (now : number) (s : GlobeScene) (m : Marker) :
  In m (dungeonMarkersRef (refs (animate now s))) ->
  (opacity (material m) = 1 \/ opacity (material m) = 0.15)
  /\ transparent (material m) = true
  /\ 0.1 <= emissiveIntensity (material m) <= 0.7
  /\ exists k, scale m = setScalar k /\ (k = 1 \/ 1.3 <= k <= 1.7).
Proof.
  intros Hm. rewrite animate_markers in Hm.
  apply In_mapi_from in Hm. destruct Hm as (m0 & j & _ & ->).
  unfold animateMarker. cbv zeta. cbn [material opacity transparent emissiveIntensity scale].
  pose proof (SIN_bound (now * 0.001 + INR j)) as [Hlo Hhi].
  pose proof (SIN_bound (now * 0.005)) as [Hlo' Hhi'].
  split; [destruct (gtb _ 0.3); auto|]. split; [reflexivity|]. split.
  - destruct (gtb _ 0.3); lra.
  - match goal with
    | |- context [if ?b then setScalar ?k else setScalar 1] =>
        destruct b; [exists k; split; [reflexivity|right; lra]
                    |exists 1; split; [reflexivity|left; reflexivity]]
    end.
Qed.

(** X7 for the first marker of the page of the game after a frame. *)
Lemma frame_styling_ranges_witness :
  exists m,
    nth_error (dungeonMarkersRef (refs (animate 1000 (pageScene 0)))) 0 = Some m
    /\ 0.1 <= emissiveIntensity (material m) <= 0.7.
Proof.
  eexists. split; [reflexivity|].
  refine (proj1 (proj2 (proj2 (frame_styling_ranges 1000 (pageScene 0) _ _)))).
  left. reflexivity.
Defined.

(** ** What the page keeps in every state it reaches *)

Lemma map_mapi_from {A B C : Type} (f : A -> nat -> B) (g : B -> C)
      (h : A -> C) (l : list A) :
  (forall a i, g (f a i) = h a) ->
  forall k, map g (mapi_from f k l) = map h l.
Proof.
  intros H. induction l as [|a l IH]; intros k; [reflexivity|].
  simpl. rewrite H, IH. reflexivity.
Qed.

Lemma animate_markerBase (now : number) (s : GlobeScene) :
  map markerBase (dungeonMarkersRef (refs (animate now s)))
  = map markerBase (dungeonMarkersRef (refs s)).
Proof.
  rewrite animate_markers. unfold mapi.
  apply map_mapi_from. intros a i. reflexivity.
Qed.

Lemma runFrame_one (now : number) (s : GlobeScene) :
  rafPending s = 1%nat -> runFrame now s = animate now (set_rafPending 0 s).
Proof. intros H. unfold runFrame. rewrite H. reflexivity. Qed.

Lemma pageScene_invariant (now0 : number) : pageSceneInvariant (pageScene now0).
Proof.
  unfold pageSceneInvariant. split; [reflexivity|]. split; [reflexivity|].
  split; [|reflexivity].
  unfold pageScene. rewrite animate_markerBase. reflexivity.
Qed.

Lemma animate_invariant (now : number) (s : GlobeScene) :
  pageSceneInvariant s -> pageSceneInvariant (animate now (set_rafPending 0 s)).
Proof.
  intros (Hr & Hc & Hm & Hp). unfold pageSceneInvariant.
  rewrite animate_markerBase.
  destruct (animate_frame_state now (set_rafPending 0 s))
    as (Hg & Hcam & _ & _ & Hraf & _ & Hrot & _).
  rewrite Hg, Hcam, Hraf, Hrot. cbn [set_rafPending refs globe_rotation camera rafPending].
  rewrite Hr. cbn [ez]. repeat split; assumption.
Qed.

Lemma dispatch_invariant
      (rect : DOMRect)
      (raycast : Vector2 -> Camera -> Euler -> list Object3D -> list Intersection)
      (t : EventType) (e : MouseEvent) (s : GlobeScene) :
  pageSceneInvariant s -> pageSceneInvariant (fst (dispatch rect raycast t e s)).
Proof.
  intros Hinv. unfold dispatch. destruct (existsb _ _); [|exact Hinv].
  destruct Hinv as (Hr & Hc & Hm & Hp).
  destruct t; cbn [fst]; try (repeat split; assumption).
  unfold handleMouseMove. destruct (negb _); [repeat split; assumption|].
  unfold pageSceneInvariant.
  cbn [set_globe_rotation set_refs refs globe_rotation camera rafPending
       rotationRef dungeonMarkersRef rot_x rot_y].
  rewrite Hr. cbn [ez]. repeat split; assumption.
Qed.

Lemma cleanup_invariant (b : bool) (s : GlobeScene) :
  pageSceneInvariant s -> pageSceneInvariant (cleanup b s).
Proof. intros H. unfold cleanup. destruct b; exact H. Qed.

Section ReachableScenes.

Variable rect : DOMRect.
Variable raycast :
  Vector2 -> Camera -> Euler -> list Object3D -> list Intersection.
Variable numberToString : number -> string.

Lemma appStep_invariant (a : App) (ev : AppEvent) :
  (exists s, view a = Some s /\ pageSceneInvariant s) ->
  exists s, view (appStep rect raycast numberToString a ev) = Some s
            /\ pageSceneInvariant s.
Proof.
  intros (s & Hv & Hinv).
  destruct ev as [|t e|now| |d|b]; simpl; rewrite Hv; simpl.
  - exists s. auto.
  - pose proof (dispatch_invariant rect raycast t e s Hinv) as H.
    destruct (dispatch rect raycast t e s) as [s' calls]. simpl in *.
    exists s'. auto.
  - rewrite runFrame_one by (apply Hinv).
    eexists. split; [reflexivity|]. apply animate_invariant. exact Hinv.
  - exists s. auto.
  - exists s. auto.
  - eexists. split; [reflexivity|]. apply cleanup_invariant. exact Hinv.
Qed.

Lemma appRun_invariant (evs : list AppEvent) :
  forall a,
    (exists s, view a = Some s /\ pageSceneInvariant s) ->
    exists s, view (appRun rect raycast numberToString a evs) = Some s
              /\ pageSceneInvariant s.
Proof.
  induction evs as [|ev evs IH]; intros a Ha; [exact Ha|].
  simpl. apply IH. apply appStep_invariant. exact Ha.
Qed.

Lemma reachable_invariant (now0 : number) (evs : list AppEvent) :
  exists s,
    view (appRun rect raycast numberToString (initialApp now0) evs) = Some s
    /\ pageSceneInvariant s.
Proof.
  apply appRun_invariant. exists (pageScene now0).
  split; [reflexivity|apply pageScene_invariant].
Qed.

End ReachableScenes.





(** X9: in every state the page reaches, the pick test and the animation
    pass agree: a hit on a marker of the scene passes the pick test exactly
    when the next frame draws that marker opaque. *)
Theorem pick_agrees_with_next_frame
        (rect : DOMRect)
        (raycast : Vector2 -> Camera -> Euler -> list Object3D -> list Intersection)
        (numberToString : number -> string)
        (now0 : number) (evs : list AppEvent) (now dist : number) :
  exists s,
    view (appRun rect raycast numberToString (initialApp now0) evs) = Some s
    /\ forall i m,
        nth_error (dungeonMarkersRef (refs s)) i = Some m ->
        exists m',
          nth_error (dungeonMarkersRef (refs (runFrame now s))) i = Some m'
          /\ (passesPick (camera s) (globe_rotation s)
                         (mkIntersection dist (MarkerMesh m))
              <-> opacity (material m') = 1).
Proof.
  destruct (reachable_invariant rect raycast numberToString now0 evs)
    as (s & Hv & Hr & Hc & Hm & Hp).
  exists s. split; [exact Hv|]. intros i m Hn.
  rewrite (runFrame_one now s Hp).
  eexists. split.
  - rewrite animate_markers, nth_error_mapi.
    cbn [set_rafPending refs dungeonMarkersRef rotationRef camera globe_rotation
         selectedDungeon].
    rewrite Hn. reflexivity.
  - unfold passesPick. cbn [object]. rewrite Hr at 1 2. cbn [ez].
    set (score := frontFaceScore _ _).
    pose proof (animateMarker_material (camera s)
                  (mkEuler (rot_x (rotationRef (refs s)))
                           (rot_y (rotationRef (refs s))) 0)
                  (selectedDungeon s) now m i) as [Hvis Hhid].
    fold score in Hvis, Hhid.
    split.
    + intros Hs. exact (proj1 (Hvis Hs)).
    + intros Ho. destruct (Rgt_dec score 0.3) as [Hgt|Hle]; [exact Hgt|].
      assert (Hle' : score <= 0.3) by lra.
      destruct (Hhid Hle') as [Ho' _]. rewrite Ho' in Ho. lra.
Qed.

Lemma appRun_frames_count
      (rect : DOMRect)
      (raycast : Vector2 -> Camera -> Euler -> list Object3D -> list Intersection)
      (numberToString : number -> string) (evs : list AppEvent) :
  forall a s,
    view a = Some s -> rafPending s = 1%nat ->
    exists s',
      view (appRun rect raycast numberToString a evs) = Some s'
      /\ rafPending s' = 1%nat
      /\ framesRendered s'
         = (framesRendered s + List.length (filter isFrame evs))%nat.
Proof.
  induction evs as [|ev evs IH]; intros a s Hv Hp.
  - exists s. simpl. repeat split; auto.
  - assert (Hstep : exists s1,
               view (appStep rect raycast numberToString a ev) = Some s1
               /\ rafPending s1 = 1%nat
               /\ framesRendered s1
                  = (framesRendered s + (if isFrame ev then 1 else 0))%nat).
    { destruct ev as [|t e|now| |d|b]; simpl; rewrite Hv; simpl.
      - exists s. repeat split; auto.
      - destruct (dispatch_keeps rect raycast t e s) as (_ & H2 & H3 & _).
        destruct (dispatch rect raycast t e s) as [s1 calls]. simpl in *.
        exists s1. unfold rerender. split; [reflexivity|]. split; [congruence|lia].
      - destruct (runFrame_keeps now s) as (_ & _ & H3 & H4).
        eexists. split; [reflexivity|]. split; [congruence|]. rewrite H4, Hp. lia.
      - exists s. repeat split; auto.
      - exists s. repeat split; auto.
      - destruct (cleanup_keeps b s) as (_ & H2 & H3).
        eexists. split; [reflexivity|]. split; [congruence|]. rewrite H3. lia. }
    destruct Hstep as (s1 & Hv1 & Hp1 & Hf1).
    destruct (IH _ s1 Hv1 Hp1) as (s' & Hv' & Hp' & Hf').
    exists s'. split; [exact Hv'|]. split; [exact Hp'|].
    rewrite Hf', Hf1. cbn [filter]. destruct (isFrame ev); simpl; lia.
Qed.

(** X10: the page draws once when it mounts and then exactly once for
    every display frame, before and after an unmount, and never on any
    other event; one call of [animate] is always waiting for the next
    frame. *)
Theorem one_draw_per_frame
        (rect : DOMRect)
        (raycast : Vector2 -> Camera -> Euler -> list Object3D -> list Intersection)
        (numberToString : number -> string)
        (now0 : number) (evs : list AppEvent) :
  exists s,
    view (appRun rect raycast numberToString (initialApp now0) evs) = Some s
    /\ framesRendered s = S (List.length (filter isFrame evs))
    /\ rafPending s = 1%nat.
Proof.
  destruct (appRun_frames_count rect raycast numberToString evs
              (initialApp now0) (pageScene now0) eq_refl eq_refl)
    as (s & Hv & Hp & Hf).
  exists s. split; [exact Hv|]. split; [exact Hf|exact Hp].
Qed.

(** X11: after the unmount no pointer event has any effect: neither the
    scene nor the state of the facade changes, whatever is pressed, moved,
    released or clicked. *)
Theorem pointer_events_dead_after_unmount
        (rect : DOMRect)
        (raycast : Vector2 -> Camera -> Euler -> list Object3D -> list Intersection)
        (numberToString : number -> string)
        (now0 : number) (evs : list AppEvent) (mountRef_current : bool)
        (ps : list (EventType * MouseEvent)) :
  let unmounted :=
    appStep rect raycast numberToString
            (appRun rect raycast numberToString (initialApp now0) evs)
            (Unmount mountRef_current) in
  appRun rect raycast numberToString unmounted
         (map (fun p => Pointer (fst p) (snd p)) ps)
  = unmounted.
Proof.
  intros unmounted.
  destruct (reachable_invariant rect raycast numberToString now0 evs)
    as (s & Hv & _).
  assert (Hu : unmounted
               = mkApp (game (appRun rect raycast numberToString
                                     (initialApp now0) evs))
                       (Some (cleanup mountRef_current s))).
  { unfold unmounted. simpl. rewrite Hv. reflexivity. }
  rewrite Hu. generalize (game (appRun rect raycast numberToString
                                       (initialApp now0) evs)) as g.
  intros g. induction ps as [|[t e] ps IH]; [reflexivity|].
  cbn [map appRun fold_left fst snd].
  assert (Hstep : appStep rect raycast numberToString
                          (mkApp g (Some (cleanup mountRef_current s)))
                          (Pointer t e)
                  = mkApp g (Some (cleanup mountRef_current s))).
  { simpl. unfold dispatch. rewrite cleanup_listeners. reflexivity. }
  rewrite Hstep. exact IH.
Qed.

(** ** The selection of the facade *)

Lemma hitFirstMarker_candidates : hitsCandidatesOnly hitFirstMarker.
Proof.
  intros ndc cam rot objs i Hi. unfold hitFirstMarker in Hi.
  destruct objs as [|g [|o objs]]; simpl in Hi; try contradiction.
  destruct Hi as [<-|[]]. simpl. auto.
Qed.

Lemma handleClick_reports
      (rect : DOMRect)
      (raycast : Vector2 -> Camera -> Euler -> list Object3D -> list Intersection)
      (e : MouseEvent) (s : GlobeScene) (r : option Dungeon) :
  hitsCandidatesOnly raycast ->
  In r (handleClick rect raycast e s) ->
  r = None
  \/ exists m, In m (dungeonMarkersRef (refs s))
               /\ r = Some (dungeon (userData m)).
Proof.
  intros Hc Hr. unfold handleClick in Hr.
  destruct (isDragging (mouseRef (refs s))); [contradiction|].
  match type of Hr with
  | In _ (scanIntersects ?c ?rot ?l) =>
      destruct (scanIntersects_spec c rot l)
        as [(pre & i & m & post & Hl & Ho & _ & _ & Hs)|[_ Hs]];
      rewrite Hs in Hr; destruct Hr as [<-|[]]
  end.
  - right. exists m. split; [|reflexivity].
    assert (Hin : In (object i)
                     (GlobeMesh :: map MarkerMesh (dungeonMarkersRef (refs s)))).
    { eapply Hc. rewrite Hl. apply in_or_app. right. left. reflexivity. }
    rewrite Ho in Hin. destruct Hin as [Hin|Hin]; [discriminate|].
    apply in_map_iff in Hin. destruct Hin as (m0 & Hm0 & Hin).
    injection Hm0 as <-. exact Hin.
  - left. reflexivity.
Qed.

Lemma page_marker_dungeon (s : GlobeScene) (m : Marker) :
  pageSceneInvariant s ->
  In m (dungeonMarkersRef (refs s)) ->
  In (dungeon (userData m)) DUNGEONS.
Proof.
  intros (_ & _ & Hm & _) Hin.
  assert (H : In (markerBase m) (map markerBase (mapi createMarker DUNGEONS))).
  { rewrite <- Hm. apply in_map. exact Hin. }
  apply in_map_iff in H. destruct H as (m0 & Hb & Hin0).
  apply In_mapi_from in Hin0. destruct Hin0 as (d & j & Hd & ->).
  unfold markerBase in Hb. injection Hb as _ Hu. rewrite <- Hu. exact Hd.
Qed.

Lemma handleRaid_selection (numberToString : number -> string)
      (p : Player) (d : Dungeon) (g : GameState) :
  game_selectedDungeon (handleRaid numberToString p d g)
  = game_selectedDungeon g.
Proof. unfold handleRaid. destruct (geb _ _); reflexivity. Qed.

Lemma raidButton_selection (numberToString : number -> string) (g : GameState) :
  game_selectedDungeon (raidButton numberToString g) = game_selectedDungeon g.
Proof.
  unfold raidButton. destruct (game_selectedDungeon g) eqn:Hs; [|exact Hs].
  destruct (geb _ _); [|exact Hs]. rewrite handleRaid_selection. exact Hs.
Qed.

(** X12: with a ray caster that reports hits on the objects it was given
    only, the selection of the facade is at all times none or one of the
    five dungeons of the game. *)
Theorem selection_is_a_dungeon_of_the_game
        (rect : DOMRect)
        (raycast : Vector2 -> Camera -> Euler -> list Object3D -> list Intersection)
        (numberToString : number -> string)
        (now0 : number) (evs : list AppEvent) :
  hitsCandidatesOnly raycast ->
  forall d,
    game_selectedDungeon
      (game (appRun rect raycast numberToString (initialApp now0) evs)) = Some d ->
    In d DUNGEONS.
Proof.
  intros Hc.
  assert (H : forall a,
             (exists s, view a = Some s /\ pageSceneInvariant s) ->
             (forall d, game_selectedDungeon (game a) = Some d -> In d DUNGEONS) ->
             forall d,
               game_selectedDungeon
                 (game (appRun rect raycast numberToString a evs)) = Some d ->
               In d DUNGEONS).
  { induction evs as [|ev evs IH]; intros a Hinv Hsel; [exact Hsel|].
    simpl. apply IH; [apply appStep_invariant; exact Hinv|].
    destruct Hinv as (s & Hv & Hinv).
    destruct ev as [|t e|now| |d0|b]; simpl; try exact Hsel.
    - rewrite Hv.
      assert (Hcalls : forall r, In r (snd (dispatch rect raycast t e s)) ->
                                 forall d, r = Some d -> In d DUNGEONS).
      { unfold dispatch. destruct (existsb _ _); [|intros r []].
        destruct t; cbn [snd]; try (intros r []).
        intros r Hr d ->.
        destruct (handleClick_reports rect raycast e s _ Hc Hr)
          as [Hn|(m & Hm & Hd)]; [discriminate|].
        injection Hd as ->. eapply page_marker_dungeon; eassumption. }
      destruct (dispatch rect raycast t e s) as [s' calls]. cbn [snd] in Hcalls.
      cbn [game commit]. revert Hsel Hcalls. generalize (game a).
      induction calls as [|c calls IHc]; intros g Hsel Hcalls; [exact Hsel|].
      cbn [fold_left]. apply IHc.
      + intros d Hd. cbn [handleDungeonSelect game_selectedDungeon] in Hd.
        eapply Hcalls; [left; reflexivity|exact Hd].
      + intros r Hr. apply Hcalls. right. exact Hr.
    - intros d Hd. rewrite raidButton_selection in Hd. exact (Hsel d Hd).
    - intros d Hd. rewrite handleRaid_selection in Hd. exact (Hsel d Hd). }
  apply H.
  - exists (pageScene now0). split; [reflexivity|apply pageScene_invariant].
  - intros d Hd. discriminate.
Qed.

(** X12 on the page of the game after a click on the first marker. *)
Lemma selection_is_a_dungeon_of_the_game_witness :
  hitsCandidatesOnly hitFirstMarker
  /\ In goblinCave DUNGEONS.
Proof.
  split; [exact hitFirstMarker_candidates|].
  apply (selection_is_a_dungeon_of_the_game (mkDOMRect 0 0 800 600)
           hitFirstMarker (fun _ => "?"%string) 0
           [Pointer click (mkMouseEvent 400 300)]
           hitFirstMarker_candidates goblinCave).
  unfold appRun. cbn [fold_left]. rewrite page_click_selects. reflexivity.
Defined.

(** ** Orientation and visibility *)








(** ** Mounting, and mounting again *)

Lemma map_index_mapi_from {A : Type} (f : A -> nat -> Marker) (l : list A) :
  (forall a i, index (userData (f a i)) = i) ->
  forall k, map (fun m => index (userData m)) (mapi_from f k l)
            = seq k (List.length l).
Proof.
  intros H. induction l as [|a l IH]; intros k; [reflexivity|].
  simpl. rewrite H, IH. reflexivity.
Qed.

(** X16: without a mount element the effect builds nothing; with one, and
    fresh refs, it builds one marker per dungeon of the props, in their
    order and numbered from 0, registers the four pointer listeners, draws
    once and leaves one call of [animate] waiting. *)
Theorem mount_builds_one_marker_per_dungeon (props : GlobeProps) (now : number) :
  mount false props initialRefs now = None
  /\ exists s,
      mount true props initialRefs now = Some s
      /\ map (fun m => dungeon (userData m)) (dungeonMarkersRef (refs s))
         = props_dungeons props
      /\ map (fun m => index (userData m)) (dungeonMarkersRef (refs s))
         = seq 0 (List.length (props_dungeons props))
      /\ listeners s = [mousedown; mousemove; mouseup; click]
      /\ framesRendered s = 1%nat
      /\ rafPending s = 1%nat.
Proof.
  split; [reflexivity|]. eexists. split; [reflexivity|].
  rewrite animate_markers.
  cbn [refs dungeonMarkersRef initialRefs app]. unfold mapi.
  rewrite !mapi_from_compose. split.
  - rewrite (map_mapi_from _ (fun m => dungeon (userData m)) (fun d => d))
      by reflexivity.
    apply map_id.
  - split; [apply map_index_mapi_from; reflexivity|].
    repeat split.
Qed.

(** X17: when the effect runs again after its cleanup (a re-mount of the
    same component), the refs are the old ones: the stored pitch and yaw
    and the pointer state are kept and the new globe takes the stored
    orientation with its first frame, while the markers of the new scene
    are pushed behind those of the old one, which the cleanup did not
    remove from the ref. *)
Theorem remount_keeps_orientation_and_old_markers
        (props : GlobeProps) (b : bool) (s : GlobeScene) (now : number) :
  exists s',
    mount true props (refs (cleanup b s)) now = Some s'
    /\ rotationRef (refs s') = rotationRef (refs s)
    /\ mouseRef (refs s') = mouseRef (refs s)
    /\ globe_rotation s'
       = mkEuler (rot_x (rotationRef (refs s))) (rot_y (rotationRef (refs s))) 0
    /\ List.length (dungeonMarkersRef (refs s'))
       = (List.length (dungeonMarkersRef (refs s))
          + List.length (props_dungeons props))%nat
    /\ map markerBase (firstn (List.length (dungeonMarkersRef (refs s)))
                              (dungeonMarkersRef (refs s')))
       = map markerBase (dungeonMarkersRef (refs s)).
Proof.
  assert (Hrefs : refs (cleanup b s) = refs s)
    by (unfold cleanup; destruct b; reflexivity).
  unfold mount. cbn [negb]. rewrite Hrefs.
  eexists. split; [reflexivity|].
  split; [reflexivity|]. split; [reflexivity|]. split; [reflexivity|].
  rewrite <- (length_map markerBase (dungeonMarkersRef (refs (animate _ _)))).
  rewrite <- firstn_map, animate_markerBase.
  cbn [refs dungeonMarkersRef]. rewrite map_app, length_app, !length_map.
  unfold mapi. rewrite length_mapi_from. split; [reflexivity|].
  rewrite <- (length_map markerBase (dungeonMarkersRef (refs s))).
  rewrite firstn_app, firstn_all, Nat.sub_diag. cbn [firstn].
  apply app_nil_r.
Qed.

(** ** Idle progression *)



(** X19: the timer sets the level to a whole number that brackets the new
    experience: ten times the level minus one is at most the experience,
    which is below ten times the level; with experience that is not
    negative the level is at least 1. *)
Theorem tick_level_brackets_experience (g : GameState) :
  let p := player (tick g) in
  (exists k : Z, player_level p = IZR k)
  /\ 10 * (player_level p - 1) <= experience p < 10 * player_level p
  /\ (0 <= experience (player g) -> 1 <= player_level p).
Proof.
  intros p. unfold p, tick; cbn [player player_level experience].
  set (e := experience (player g) + EXPERIENCE_PER_TICK).
  unfold floor.
  destruct (base_Int_part (e / 10)) as [Hlo Hhi].
  split; [exists (Int_part (e / 10) + 1)%Z; rewrite plus_IZR; reflexivity|].
  assert (He : e / 10 * 10 = e) by field.
  split; [split; lra|].
  intros H0. unfold e, EXPERIENCE_PER_TICK in *.
  assert (Hk : (0 <= Int_part ((experience (player g) + 0.05) / 10))%Z).
  { apply Z.lt_succ_r. apply lt_IZR. rewrite succ_IZR. lra. }
  apply IZR_le in Hk. lra.
Qed.

Lemma fold_select_keeps (calls : list (option Dungeon)) :
  forall g,
    player (fold_left (fun g d => handleDungeonSelect d g) calls g) = player g
    /\ gameLog (fold_left (fun g d => handleDungeonSelect d g) calls g)
       = gameLog g.
Proof.
  induction calls as [|c calls IH]; intros g; [split; reflexivity|].
  cbn [fold_left]. destruct (IH (handleDungeonSelect c g)) as [H1 H2].
  rewrite H1, H2. split; reflexivity.
Qed.




(** ** Raids in a row *)







(** X22: the raid button does what [handleRaid] does for the selected
    dungeon and nothing without a selection: the test in front of the
    handler and the test inside it are the same, so the button is idle
    exactly when the handler would be. *)
Theorem raidButton_is_handleRaid (numberToString : number -> string)
        (g : GameState) :
  raidButton numberToString g
  = match game_selectedDungeon g with
    | None => g
    | Some d => handleRaid numberToString (player g) d g
    end.
Proof.
  unfold raidButton. destruct (game_selectedDungeon g) as [d|]; [|reflexivity].
  destruct (geb (strength (player g)) (requiredStrength d)) eqn:Hg; [reflexivity|].
  unfold handleRaid. rewrite Hg. reflexivity.
Qed.


(** ** Pointer events and the facade *)

(** X24: a pointer event on the canvas changes neither the player nor the
    log, and a click changes nothing in the scene: its only effect is on
    the selection. *)
Theorem pointer_events_touch_only_scene_and_selection
        (rect : DOMRect)
        (raycast : Vector2 -> Camera -> Euler -> list Object3D -> list Intersection)
        (numberToString : number -> string)
        (a : App) (t : EventType) (e : MouseEvent) :
  let a' := appStep rect raycast numberToString a (Pointer t e) in
  player (game a') = player (game a)
  /\ gameLog (game a') = gameLog (game a)
  /\ view (appStep rect raycast numberToString a (Pointer click e)) = view a.
Proof.
  intros a'. unfold a'. cbn [appStep].
  destruct (view a) as [s|] eqn:Hv.
  - split; [|split].
    + destruct (dispatch rect raycast t e s) as [s' calls]. cbn [game commit].
      apply fold_select_keeps.
    + destruct (dispatch rect raycast t e s) as [s' calls]. cbn [game commit].
      apply fold_select_keeps.
    + unfold dispatch. destruct (existsb _ _); reflexivity.
  - rewrite Hv. repeat split.
Qed.
